(** * docker-web: the resource gateway (server.ts) and the dashboard client (App)

    A shallow embedding of the two components of the repository.

    - [Js] collects the few pieces of the JavaScript runtime the code relies
      on: string helpers, insertion-ordered sets, settled promises and
      [Array.prototype.sort].
    - [Gateway] embeds the HTTP handlers of [server.ts].  The Docker engine
      (dockerode) is an interface; handlers thread the engine through their
      calls.
    - [Client] embeds the state of the React component [App] and its event
      handlers as functions on that state.
    - [Inventory] embeds the gateway's list endpoints, its usage summary
      and the lazily created engine handle; [Wire] puts a client request
      through the gateway; [View] holds what the page derives from the
      state when it renders.

    Numbers are modelled as [Z] (sizes, counts and timestamps are integers;
    NaN and fractional values are outside the model) and strings as
    [string] with ASCII case folding. *)

From Stdlib Require Import List String Ascii ZArith Lia Bool Arith.
From Stdlib Require Import Permutation Sorted DecimalString.
Import ListNotations.

Local Open Scope string_scope.
Local Open Scope Z_scope.
Local Open Scope list_scope.

Set Implicit Arguments.

(* ===================================================================== *)
(** ** JavaScript runtime *)
(* ===================================================================== *)

Module Js.

(** A value thrown by [throw] or carried by a rejected promise: an
    [Error] with its message, or some other value, which has no
    [message].  The code only ever inspects [err instanceof Error] and
    [err.message]. *)
Inductive Thrown : Type :=
| ErrorObject (message : string)
| OtherValue.

(** The outcome of awaiting a promise. *)
Inductive Settled (A : Type) : Type :=
| Fulfilled (value : A)
| Rejected (reason : Thrown).

Arguments Fulfilled {A} value.
Arguments Rejected {A} reason.

(** [x || 0] on a possibly missing number: [undefined], [null] and [0]
    are falsy. *)
Definition orZero (x : option Z) : Z :=
  match x with
  | Some z => if z =? 0 then 0 else z
  | None => 0
  end.

(** *** [Map] with string keys: insertion-ordered, [set] overwrites in
    place. *)
Definition JsMap (V : Type) : Type := list (string * V).

Fixpoint mapSet {V} (k : string) (v : V) (m : JsMap V) : JsMap V :=
  match m with
  | [] => [(k, v)]
  | (k', v') :: m' =>
      if String.eqb k' k then (k', v) :: m' else (k', v') :: mapSet k v m'
  end.

Fixpoint mapGet {V} (k : string) (m : JsMap V) : option V :=
  match m with
  | [] => None
  | (k', v') :: m' => if String.eqb k' k then Some v' else mapGet k m'
  end.

(** *** [Set] of strings: insertion-ordered, no duplicates. *)
Definition JsSet : Type := list string.

Definition setHas (x : string) (s : JsSet) : bool :=
  existsb (String.eqb x) s.

Definition setAdd (x : string) (s : JsSet) : JsSet :=
  if setHas x s then s else s ++ [x].

Definition setDelete (x : string) (s : JsSet) : JsSet :=
  filter (fun y => negb (String.eqb y x)) s.

(** [new Set(array)] *)
Definition setOf (l : list string) : JsSet :=
  fold_left (fun s x => setAdd x s) l [].

(** [set.size] *)
Definition setSize (s : JsSet) : nat := List.length s.

(** *** Strings *)

Definition lowerChar (c : ascii) : ascii :=
  let n := nat_of_ascii c in
  if ((65 <=? n) && (n <=? 90))%nat then ascii_of_nat (n + 32) else c.

(** [s.toLowerCase()], on ASCII text. *)
Fixpoint toLowerCase (s : string) : string :=
  match s with
  | EmptyString => EmptyString
  | String c s' => String (lowerChar c) (toLowerCase s')
  end.

(** [s.includes(t)] *)
Fixpoint includes (s t : string) : bool :=
  String.prefix t s ||
  match s with
  | EmptyString => false
  | String _ s' => includes s' t
  end.

Fixpoint dropChars (n : nat) (s : string) : string :=
  match n, s with
  | O, _ => s
  | S n', String _ s' => dropChars n' s'
  | S _, EmptyString => EmptyString
  end.

(** [s.replace(pat, rep)] with a string pattern: only the first
    occurrence is replaced. *)
Fixpoint replace (pat rep s : string) : string :=
  if String.prefix pat s then rep ++ dropChars (String.length pat) s
  else match s with
       | EmptyString => EmptyString
       | String c s' => String c (replace pat rep s')
       end.

(** Decimal rendering of an integer, as template literals and [String(n)]
    produce it. *)
Definition showZ (z : Z) : string := NilZero.string_of_int (Z.to_int z).
Definition showNat (n : nat) : string := NilZero.string_of_uint (Nat.to_uint n).

(** *** [Array.prototype.sort(compare)]

    The language guarantees a stable sort; for a comparator that is
    consistent on the array every stable sort returns the same array, so
    the model fixes one: insertion from the right, an element going in
    front of the first element it does not compare greater than. *)
Section Sort.
Variable A : Type.
Variable compare : A -> A -> Z.

Fixpoint insertSorted (x : A) (l : list A) : list A :=
  match l with
  | [] => [x]
  | y :: l' =>
      if compare x y <=? 0 then x :: l else y :: insertSorted x l'
  end.

Definition arraySort (l : list A) : list A :=
  fold_right insertSorted [] l.

(** The language's notion of a comparator that is consistent on the
    values of an array: opposite calls agree, and "not after" is
    transitive. *)
Definition consistentOn (l : list A) : Prop :=
  (forall a b, In a l -> In b l -> (compare a b < 0 <-> 0 < compare b a)) /\
  (forall a b c, In a l -> In b l -> In c l ->
     compare a b <= 0 -> compare b c <= 0 -> compare a c <= 0).
End Sort.

End Js.

(* ===================================================================== *)
(** ** Resource gateway (server.ts) *)
(* ===================================================================== *)

Module Gateway.
Import Js.

(** The four resource kinds, one pair of endpoints each. *)
Inductive Kind : Type := Containers | Images | Volumes | Networks.

(** The options object handed to dockerode's [remove]. *)
Record RemoveOptions : Type := { force : bool }.

(** *** Engine data read by the volume endpoint *)

Record VolumeUsage : Type := {
  Size : Z;
  RefCount : Z
}.

(** A volume as the engine reports it, both in [listVolumes()] and in the
    [Volumes] section of [df()]. *)
Record EngineVolume : Type := {
  Name : string;
  Driver : string;
  Mountpoint : string;
  CreatedAt : option string;
  UsageData : option VolumeUsage
}.

(** [docker.listVolumes()]; [Volumes] may be [null]. *)
Record VolumeListing : Type := {
  listedVolumes : option (list EngineVolume)
}.

(** [docker.df()], restricted to the section the volume endpoint reads. *)
Record DfReport : Type := {
  dfVolumes : option (list EngineVolume)
}.

(** *** The engine interface (dockerode)

    Every call may change the engine and either resolves or rejects.
    [remove] is [docker.getContainer(id).remove(opts)] and its three
    siblings; [opts = None] is a call without an options object. *)
Class Docker (E : Type) : Type := {
  remove : Kind -> string -> option RemoveOptions -> E -> E * Settled unit;
  listVolumes : E -> E * Settled VolumeListing;
  df : E -> E * Settled DfReport
}.

(** *** Responses *)

(** One entry of [results].  The identifier is published under the key
    [id], or [name] for volumes. *)
Inductive KeyLabel : Type := KeyId | KeyName.

Record DeleteResult : Type := {
  label : KeyLabel;
  ident : string;
  success : bool;
  error : option string
}.

Record VolumeDetail : Type := {
  name : string;
  driver : string;
  mountpoint : string;
  created : option string;
  size : Z;
  refCount : Z
}.

Inductive Response : Type :=
| DeleteResults (results : list DeleteResult)   (* 200, [{results}] *)
| VolumeDetails (volumes : list VolumeDetail)   (* 200, the array *)
| Failure (status : nat) (message : string).    (* [{error}], status *)

(** [(error as Error).message] *)
Definition messageOf (t : Thrown) : option string :=
  match t with
  | ErrorObject m => Some m
  | OtherValue => None
  end.

Section Handlers.

Context {E : Type} `{Docker E}.

(** The body of the inner [try]/[catch] of a delete loop: one removal,
    one pushed entry. *)
Definition attempt (k : Kind) (opts : option RemoveOptions) (l : KeyLabel)
    (id : string) (e : E) : E * DeleteResult :=
  match remove k id opts e with
  | (e', Fulfilled _) =>
      (e', {| label := l; ident := id; success := true; error := None |})
  | (e', Rejected t) =>
      (e', {| label := l; ident := id; success := false;
              error := messageOf t |})
  end.

(** [for (const id of ids) { try { ... } catch { ... } }], with [results]
    as the accumulator the loop pushes onto. *)
Fixpoint removeAll (k : Kind) (opts : option RemoveOptions) (l : KeyLabel)
    (ids : list string) (results : list DeleteResult) (e : E)
  : E * list DeleteResult :=
  match ids with
  | [] => (e, results)
  | id :: rest =>
      let (e', r) := attempt k opts l id e in
      removeAll k opts l rest (results ++ [r]) e'
  end.

(** A delete request's JSON body after destructuring: [None] stands for a
    body that does not parse or lacks the array, which makes the outer
    [try] fail. *)
Definition DeleteBody : Type := option (list string).

(** [app.delete('/api/containers')] *)
Definition deleteContainers (body : DeleteBody) (e : E) : E * Response :=
  match body with
  | None => (e, Failure 500 "Failed to delete containers")
  | Some ids =>
      let (e', results) :=
        removeAll Containers (Some {| force := true |}) KeyId ids [] e in
      (e', DeleteResults results)
  end.

(** [app.delete('/api/images')] *)
Definition deleteImages (body : DeleteBody) (e : E) : E * Response :=
  match body with
  | None => (e, Failure 500 "Failed to delete images")
  | Some ids =>
      let (e', results) :=
        removeAll Images (Some {| force := true |}) KeyId ids [] e in
      (e', DeleteResults results)
  end.

(** [app.delete('/api/volumes')] *)
Definition deleteVolumes (body : DeleteBody) (e : E) : E * Response :=
  match body with
  | None => (e, Failure 500 "Failed to delete volumes")
  | Some names =>
      let (e', results) :=
        removeAll Volumes (Some {| force := true |}) KeyName names [] e in
      (e', DeleteResults results)
  end.

(** [app.delete('/api/networks')]; [network.remove()] carries no options. *)
Definition deleteNetworks (body : DeleteBody) (e : E) : E * Response :=
  match body with
  | None => (e, Failure 500 "Failed to delete networks")
  | Some ids =>
      let (e', results) := removeAll Networks None KeyId ids [] e in
      (e', DeleteResults results)
  end.

(** Routing of [DELETE /api/<kind>]. *)
Definition handleDeleteRequest (k : Kind) : DeleteBody -> E -> E * Response :=
  match k with
  | Containers => deleteContainers
  | Images => deleteImages
  | Volumes => deleteVolumes
  | Networks => deleteNetworks
  end.

(** [df.Volumes.forEach(vol => volumeSizes.set(vol.Name, vol.UsageData?.Size || 0))] *)
Definition collectSizes (vols : list EngineVolume) : JsMap Z :=
  fold_left
    (fun m vol => mapSet (Name vol) (orZero (option_map Size (UsageData vol))) m)
    vols [].

(** The record built for one listed volume. *)
Definition volumeDetail (volumeSizes : JsMap Z) (volume : EngineVolume)
  : VolumeDetail :=
  {| name := Name volume;
     driver := Driver volume;
     mountpoint := Mountpoint volume;
     created := CreatedAt volume;
     size := orZero (mapGet (Name volume) volumeSizes);
     refCount := orZero (option_map RefCount (UsageData volume)) |}.

(** [app.get('/api/volumes')] *)
Definition getVolumes (e : E) : E * Response :=
  match listVolumes e with
  | (e1, Rejected _) => (e1, Failure 500 "Failed to fetch volumes")
  | (e1, Fulfilled volumesData) =>
      match df e1 with
      | (e2, Rejected _) => (e2, Failure 500 "Failed to fetch volumes")
      | (e2, Fulfilled report) =>
          let volumeSizes :=
            match dfVolumes report with
            | Some vols => collectSizes vols
            | None => []
            end in
          match listedVolumes volumesData with
          | None => (e2, Failure 500 "Failed to fetch volumes")
          | Some vols =>
              (e2, VolumeDetails (map (volumeDetail volumeSizes) vols))
          end
      end
  end.

End Handlers.

(** *** Observing the calls a handler issues *)

(** A removal as the engine receives it. *)
Record RemoveCall : Type := {
  callKind : Kind;
  callTarget : string;
  callOptions : option RemoveOptions
}.

(** An engine that records every removal it is asked for and otherwise
    behaves as the engine it wraps. *)
#[export] Instance recording {E : Type} (D : Docker E)
  : Docker (E * list RemoveCall) := {
  remove k id opts '(e, log) :=
    let (e', r) := remove (Docker := D) k id opts e in
    ((e', log ++ [{| callKind := k; callTarget := id;
                     callOptions := opts |}]), r);
  listVolumes '(e, log) :=
    let (e', r) := listVolumes (Docker := D) e in ((e', log), r);
  df '(e, log) :=
    let (e', r) := df (Docker := D) e in ((e', log), r)
}.

(** A scripted engine for concrete runs: the state is the set of removals
    the engine refuses, each with its error message; a successful removal
    changes nothing else. *)
Record Script : Type := {
  refusals : list (string * string);
  volumeList : Settled VolumeListing;
  usageReport : Settled DfReport
}.

#[export] Instance scripted : Docker Script := {
  remove _ id _ s :=
    match mapGet id (refusals s) with
    | Some msg => (s, Rejected (ErrorObject msg))
    | None => (s, Fulfilled tt)
    end;
  listVolumes s := (s, volumeList s);
  df s := (s, usageReport s)
}.

(** An engine for the scenarios: it refuses to remove [c2]; it lists the
    volumes [data] and [cache], and its usage report knows [data] only. *)
Definition dataVolume (usage : option VolumeUsage) : EngineVolume :=
  {| Name := "data"; Driver := "local";
     Mountpoint := "/var/lib/docker/volumes/data/_data";
     CreatedAt := Some "2024-01-01T00:00:00Z"; UsageData := usage |}.

Definition cacheVolume : EngineVolume :=
  {| Name := "cache"; Driver := "local";
     Mountpoint := "/var/lib/docker/volumes/cache/_data";
     CreatedAt := None; UsageData := None |}.

Definition scenarioEngine : Script :=
  {| refusals := [("c2", "container is running")];
     volumeList :=
       Fulfilled {| listedVolumes := Some [dataVolume None; cacheVolume] |};
     usageReport :=
       Fulfilled
         {| dfVolumes :=
              Some [dataVolume (Some {| Size := 2048; RefCount := 1 |})] |} |}.

End Gateway.

(* ===================================================================== *)
(** ** Dashboard client (App) *)
(* ===================================================================== *)

Module Client.
Import Js.

Inductive TabType : Type :=
| containersTab | imagesTab | volumesTab | networksTab.

Inductive SortDirection : Type := asc | desc.

(** The records the gateway sends.  A field the gateway may leave out of
    the JSON (the engine did not report it) is an [option]. *)
Module Container.
Record t : Type := {
  id : string;
  names : list string;
  image : string;
  state : string;
  status : string;
  created : Z;
  size : Z
}.
End Container.

Module Image.
Record t : Type := {
  id : string;
  repoTags : list string;
  created : Z;
  size : Z;
  virtualSize : option Z;
  containers : option Z
}.
End Image.

Module Volume.
Record t : Type := {
  name : string;
  driver : string;
  mountpoint : string;
  created : option string;
  size : Z;
  refCount : Z
}.
End Volume.

Module Network.
Record t : Type := {
  id : string;
  name : string;
  driver : string;
  scope : string;
  internal : bool;
  created : option string
}.
End Network.

Record Count : Type := { count : Z; totalSize : Z }.

Record SystemInfo : Type := {
  infoImages : Count;
  infoContainers : Count;
  infoVolumes : Count
}.

Record SortConfig : Type := {
  key : string;
  direction : SortDirection
}.

(** A row of the table: the handlers treat rows as [any]. *)
Inductive Item : Type :=
| ContainerItem (c : Container.t)
| ImageItem (i : Image.t)
| VolumeItem (v : Volume.t)
| NetworkItem (n : Network.t).

(** The component's state, one field per [useState]. *)
Record State : Type := {
  activeTab : TabType;
  containers : list Container.t;
  images : list Image.t;
  volumes : list Volume.t;
  networks : list Network.t;
  systemInfo : option SystemInfo;
  selectedItems : JsSet;
  loading : bool;
  error : option string;
  searchTerm : string;
  sortConfig : option SortConfig
}.

(** The state setters. *)
Definition setActiveTab (t : TabType) (st : State) : State :=
  {| activeTab := t; containers := containers st; images := images st;
     volumes := volumes st; networks := networks st;
     systemInfo := systemInfo st; selectedItems := selectedItems st;
     loading := loading st; error := error st;
     searchTerm := searchTerm st; sortConfig := sortConfig st |}.

Definition setContainers (l : list Container.t) (st : State) : State :=
  {| activeTab := activeTab st; containers := l; images := images st;
     volumes := volumes st; networks := networks st;
     systemInfo := systemInfo st; selectedItems := selectedItems st;
     loading := loading st; error := error st;
     searchTerm := searchTerm st; sortConfig := sortConfig st |}.

Definition setImages (l : list Image.t) (st : State) : State :=
  {| activeTab := activeTab st; containers := containers st; images := l;
     volumes := volumes st; networks := networks st;
     systemInfo := systemInfo st; selectedItems := selectedItems st;
     loading := loading st; error := error st;
     searchTerm := searchTerm st; sortConfig := sortConfig st |}.

Definition setVolumes (l : list Volume.t) (st : State) : State :=
  {| activeTab := activeTab st; containers := containers st;
     images := images st; volumes := l; networks := networks st;
     systemInfo := systemInfo st; selectedItems := selectedItems st;
     loading := loading st; error := error st;
     searchTerm := searchTerm st; sortConfig := sortConfig st |}.

Definition setNetworks (l : list Network.t) (st : State) : State :=
  {| activeTab := activeTab st; containers := containers st;
     images := images st; volumes := volumes st; networks := l;
     systemInfo := systemInfo st; selectedItems := selectedItems st;
     loading := loading st; error := error st;
     searchTerm := searchTerm st; sortConfig := sortConfig st |}.

Definition setSystemInfo (i : option SystemInfo) (st : State) : State :=
  {| activeTab := activeTab st; containers := containers st;
     images := images st; volumes := volumes st; networks := networks st;
     systemInfo := i; selectedItems := selectedItems st;
     loading := loading st; error := error st;
     searchTerm := searchTerm st; sortConfig := sortConfig st |}.

Definition setSelectedItems (s : JsSet) (st : State) : State :=
  {| activeTab := activeTab st; containers := containers st;
     images := images st; volumes := volumes st; networks := networks st;
     systemInfo := systemInfo st; selectedItems := s;
     loading := loading st; error := error st;
     searchTerm := searchTerm st; sortConfig := sortConfig st |}.

Definition setLoading (b : bool) (st : State) : State :=
  {| activeTab := activeTab st; containers := containers st;
     images := images st; volumes := volumes st; networks := networks st;
     systemInfo := systemInfo st; selectedItems := selectedItems st;
     loading := b; error := error st;
     searchTerm := searchTerm st; sortConfig := sortConfig st |}.

Definition setError (e : option string) (st : State) : State :=
  {| activeTab := activeTab st; containers := containers st;
     images := images st; volumes := volumes st; networks := networks st;
     systemInfo := systemInfo st; selectedItems := selectedItems st;
     loading := loading st; error := e;
     searchTerm := searchTerm st; sortConfig := sortConfig st |}.

Definition setSearchTerm (s : string) (st : State) : State :=
  {| activeTab := activeTab st; containers := containers st;
     images := images st; volumes := volumes st; networks := networks st;
     systemInfo := systemInfo st; selectedItems := selectedItems st;
     loading := loading st; error := error st;
     searchTerm := s; sortConfig := sortConfig st |}.

Definition setSortConfig (c : option SortConfig) (st : State) : State :=
  {| activeTab := activeTab st; containers := containers st;
     images := images st; volumes := volumes st; networks := networks st;
     systemInfo := systemInfo st; selectedItems := selectedItems st;
     loading := loading st; error := error st;
     searchTerm := searchTerm st; sortConfig := c |}.

(** The state [useState] starts from. *)
Definition initialState : State :=
  {| activeTab := containersTab; containers := []; images := [];
     volumes := []; networks := []; systemInfo := None;
     selectedItems := []; loading := false; error := None;
     searchTerm := ""; sortConfig := None |}.

(** *** fetchData *)

(** What the code reads of a [fetch] response: [ok], and the body that
    [json()] resolves to or the error it rejects with. *)
Record FetchResponse (A : Type) : Type := {
  ok : bool;
  json : Settled A
}.

Record Responses : Type := {
  containersRes : FetchResponse (list Container.t);
  imagesRes : FetchResponse (list Image.t);
  volumesRes : FetchResponse (list Volume.t);
  networksRes : FetchResponse (list Network.t);
  systemRes : FetchResponse SystemInfo
}.

(** What [await Promise.all([...five fetches...])] produces: the five
    responses, or the reason of the first fetch that rejected. *)
Definition FetchOutcome : Type := Settled Responses.

(** [err instanceof Error ? err.message : 'An error occurred'] *)
Definition errorText (t : Thrown) : string :=
  match t with
  | ErrorObject m => m
  | OtherValue => "An error occurred"
  end.

(** A stretch of a [try] block: the state it leaves and whether it threw. *)
Definition Block : Type := State -> State * option Thrown.

Definition andThen (b1 b2 : Block) : Block :=
  fun st =>
    match b1 st with
    | (st', None) => b2 st'
    | thrown => thrown
    end.

Notation "b1 ;; b2" := (andThen b1 b2) (at level 61, right associativity).

(** [setX(await res.json() as T)] *)
Definition commitJson {A : Type} (res : FetchResponse A)
    (set : A -> State -> State) : Block :=
  fun st =>
    match json res with
    | Fulfilled body => (set body st, None)
    | Rejected t => (st, Some t)
    end.

(** [try { ... } catch (err) { setError(...) } finally { setLoading(false) }] *)
Definition guarded (body : Block) (st : State) : State :=
  match body st with
  | (st', None) => setLoading false st'
  | (st', Some err) => setLoading false (setError (Some (errorText err)) st')
  end.

(** The [try] block of [fetchData]. *)
Definition fetchDataBody (outcome : FetchOutcome) : Block :=
  fun st =>
    match outcome with
    | Rejected t => (st, Some t)
    | Fulfilled rs =>
        if negb (ok (containersRes rs)) || negb (ok (imagesRes rs)) ||
           negb (ok (volumesRes rs)) || negb (ok (networksRes rs)) ||
           negb (ok (systemRes rs))
        then (st, Some (ErrorObject "Failed to fetch data"))
        else
          (commitJson (containersRes rs) setContainers ;;
           commitJson (imagesRes rs) setImages ;;
           commitJson (volumesRes rs) setVolumes ;;
           commitJson (networksRes rs) setNetworks ;;
           commitJson (systemRes rs) (fun i => setSystemInfo (Some i))) st
    end.

Definition fetchData (outcome : FetchOutcome) (st : State) : State :=
  guarded (fetchDataBody outcome) (setError None (setLoading true st)).

(** *** handleSort *)

Definition isAsc (d : SortDirection) : bool :=
  match d with asc => true | desc => false end.

Definition handleSort (k : string) (st : State) : State :=
  let direction :=
    match sortConfig st with
    | Some cfg =>
        if String.eqb (key cfg) k && isAsc (direction cfg) then desc else asc
    | None => asc
    end in
  setSortConfig (Some {| key := k; direction := direction |}) st.

(** *** sortItems *)

(** The values a row's fields hold. *)
Inductive JsValue : Type :=
| VUndefined
| VNull
| VString (s : string)
| VNumber (z : Z)
| VBoolean (b : bool)
| VArray (l : list string).

Definition ofOptString (o : option string) : JsValue :=
  match o with Some s => VString s | None => VUndefined end.

Definition ofOptNumber (o : option Z) : JsValue :=
  match o with Some z => VNumber z | None => VUndefined end.

(** [a[key]] *)
Definition getProp (a : Item) (k : string) : JsValue :=
  match a with
  | ContainerItem c =>
      if String.eqb k "id" then VString (Container.id c)
      else if String.eqb k "names" then VArray (Container.names c)
      else if String.eqb k "image" then VString (Container.image c)
      else if String.eqb k "state" then VString (Container.state c)
      else if String.eqb k "status" then VString (Container.status c)
      else if String.eqb k "created" then VNumber (Container.created c)
      else if String.eqb k "size" then VNumber (Container.size c)
      else VUndefined
  | ImageItem i =>
      if String.eqb k "id" then VString (Image.id i)
      else if String.eqb k "repoTags" then VArray (Image.repoTags i)
      else if String.eqb k "created" then VNumber (Image.created i)
      else if String.eqb k "size" then VNumber (Image.size i)
      else if String.eqb k "virtualSize" then ofOptNumber (Image.virtualSize i)
      else if String.eqb k "containers" then ofOptNumber (Image.containers i)
      else VUndefined
  | VolumeItem v =>
      if String.eqb k "name" then VString (Volume.name v)
      else if String.eqb k "driver" then VString (Volume.driver v)
      else if String.eqb k "mountpoint" then VString (Volume.mountpoint v)
      else if String.eqb k "created" then ofOptString (Volume.created v)
      else if String.eqb k "size" then VNumber (Volume.size v)
      else if String.eqb k "refCount" then VNumber (Volume.refCount v)
      else VUndefined
  | NetworkItem n =>
      if String.eqb k "id" then VString (Network.id n)
      else if String.eqb k "name" then VString (Network.name n)
      else if String.eqb k "driver" then VString (Network.driver n)
      else if String.eqb k "scope" then VString (Network.scope n)
      else if String.eqb k "internal" then VBoolean (Network.internal n)
      else if String.eqb k "created" then ofOptString (Network.created n)
      else VUndefined
  end.

(** [s || ''] for a possibly missing string: the empty string is falsy. *)
Definition orEmpty (o : option string) : string :=
  match o with Some s => s | None => "" end.

(** [a.names[0]?.replace('/', '') || ''].  On a row without a [names]
    array the expression throws; [getFilteredItems] never hands such a
    row over while the containers tab is active, and the model reads the
    array as empty there. *)
Definition primaryName (a : Item) : string :=
  match getProp a "names" with
  | VArray l => orEmpty (option_map (replace "/" "") (nth_error l 0))
  | _ => ""
  end.

(** [a.repoTags[0] || ''], with the same convention for rows without a
    [repoTags] array. *)
Definition primaryTag (a : Item) : string :=
  match getProp a "repoTags" with
  | VArray l => orEmpty (nth_error l 0)
  | _ => ""
  end.

(** The value a row is sorted by: the field, the special cases, then the
    replacement of [null] and [undefined]. *)
Definition sortValue (tab : TabType) (k : string) (a : Item) : JsValue :=
  let v :=
    if String.eqb k "name" || String.eqb k "names" then
      match tab with
      | containersTab => VString (primaryName a)
      | volumesTab | networksTab => getProp a "name"
      | imagesTab => getProp a k
      end
    else if String.eqb k "repoTags" then VString (primaryTag a)
    else getProp a k in
  match v with
  | VNull | VUndefined => VString ""
  | _ => v
  end.

(** [String(v)] *)
Definition toString (v : JsValue) : string :=
  match v with
  | VUndefined => "undefined"
  | VNull => "null"
  | VString s => s
  | VNumber z => showZ z
  | VBoolean true => "true"
  | VBoolean false => "false"
  | VArray l => String.concat "," l
  end.

Section Locale.

(** [a.localeCompare(b)]: the collation of the host's locale. *)
Variable localeCompare : string -> string -> Z.

(** The "Compare values" step. *)
Definition comparison (aValue bValue : JsValue) : Z :=
  match aValue, bValue with
  | VString s, VString t => localeCompare (toLowerCase s) (toLowerCase t)
  | VNumber m, VNumber n => m - n
  | VBoolean x, VBoolean y => if Bool.eqb x y then 0 else if x then 1 else -1
  | _, _ => localeCompare (toString aValue) (toString bValue)
  end.

(** The function handed to [sort]. *)
Definition compareItems (tab : TabType) (cfg : SortConfig) (a b : Item) : Z :=
  let c := comparison (sortValue tab (key cfg) a) (sortValue tab (key cfg) b) in
  if isAsc (direction cfg) then c else - c.

Definition sortItems (st : State) (items : list Item) : list Item :=
  match sortConfig st with
  | None => items
  | Some cfg => arraySort (compareItems (activeTab st) cfg) items
  end.

(** *** getFilteredItems, getSortedAndFilteredItems *)

(** The collection of the active tab. *)
Definition tabItems (st : State) : list Item :=
  match activeTab st with
  | containersTab => map ContainerItem (containers st)
  | imagesTab => map ImageItem (images st)
  | volumesTab => map VolumeItem (volumes st)
  | networksTab => map NetworkItem (networks st)
  end.

(** [field.toLowerCase().includes(searchLower)] *)
Definition hit (searchLower field : string) : bool :=
  includes (toLowerCase field) searchLower.

(** The predicate handed to [filter].  A row of another kind than the
    tab's lacks the fields read and cannot occur. *)
Definition matchesSearch (tab : TabType) (term : string) (item : Item) : bool :=
  let searchLower := toLowerCase term in
  match tab, item with
  | containersTab, ContainerItem c =>
      existsb (hit searchLower) (Container.names c) ||
      hit searchLower (Container.image c) ||
      hit searchLower (Container.status c)
  | imagesTab, ImageItem i =>
      existsb (hit searchLower) (Image.repoTags i) ||
      hit searchLower (Image.id i)
  | volumesTab, VolumeItem v =>
      hit searchLower (Volume.name v) || hit searchLower (Volume.driver v)
  | networksTab, NetworkItem n =>
      hit searchLower (Network.name n) || hit searchLower (Network.driver n)
  | _, _ => false
  end.

Definition getFilteredItems (st : State) : list Item :=
  let items := tabItems st in
  if String.eqb (searchTerm st) "" then items
  else filter (matchesSearch (activeTab st) (searchTerm st)) items.

Definition getSortedAndFilteredItems (st : State) : list Item :=
  let filtered := getFilteredItems st in
  sortItems st filtered.

(** *** Selection *)

(** [activeTab === 'volumes' ? item.name : item.id]; a row's [id] or
    [name] is always a string for the rows of its own tab. *)
Definition itemKey (tab : TabType) (item : Item) : string :=
  match (match tab with
         | volumesTab => getProp item "name"
         | _ => getProp item "id"
         end) with
  | VString s => s
  | v => toString v
  end.

Definition handleSelectAll (st : State) : State :=
  let items := getSortedAndFilteredItems st in
  let allIds := map (itemKey (activeTab st)) items in
  if Nat.eqb (setSize (selectedItems st)) (List.length allIds)
  then setSelectedItems [] st
  else setSelectedItems (setOf allIds) st.

Definition handleSelectItem (id : string) (st : State) : State :=
  let newSelected := selectedItems st in
  if setHas id newSelected
  then setSelectedItems (setDelete id newSelected) st
  else setSelectedItems (setAdd id newSelected) st.

(** *** handleDelete *)

(** The request [handleDelete] sends: the endpoint of the active tab and
    [Array.from(selectedItems)] under [names] for volumes, [ids]
    otherwise. *)
Inductive BodyKey : Type := ids | names.

Record DeleteRequest : Type := {
  endpoint : TabType;
  bodyKey : BodyKey;
  identifiers : list string
}.

Definition deleteRequest (st : State) : DeleteRequest :=
  {| endpoint := activeTab st;
     bodyKey := match activeTab st with volumesTab => names | _ => ids end;
     identifiers := selectedItems st |}.

(** The part of a result entry the client reads. *)
Record Outcome : Type := { success : bool }.

(** The statements of [handleDelete] between the decoding of the response
    and the refresh: the failure count, then the cleared selection. *)
Definition recordOutcomes (results : list Outcome) (st : State) : State :=
  let failed := filter (fun r => negb (success r)) results in
  let st1 :=
    if (0 <? List.length failed)%nat
    then setError
           (Some ("Failed to delete " ++
                  showNat (List.length failed) ++ " items")%string)
           st
    else st in
  setSelectedItems [] st1.

(** The [try] block of [handleDelete]: [response] is what the [fetch]
    settles to, [refresh] what the five fetches of the nested
    [fetchData] settle to. *)
Definition handleDeleteBody
    (response : Settled (FetchResponse (list Outcome)))
    (refresh : FetchOutcome) : Block :=
  fun st =>
    match response with
    | Rejected t => (st, Some t)
    | Fulfilled res =>
        if negb (ok res) then (st, Some (ErrorObject "Failed to delete items"))
        else
          match json res with
          | Rejected t => (st, Some t)
          | Fulfilled results =>
              (fetchData refresh (recordOutcomes results st), None)
          end
    end.

(** [confirmed] is the answer to the [confirm] dialog. *)
Definition handleDelete (confirmed : bool)
    (response : Settled (FetchResponse (list Outcome)))
    (refresh : FetchOutcome) (st : State) : State :=
  if Nat.eqb (setSize (selectedItems st)) 0 then st
  else if negb confirmed then st
  else guarded (handleDeleteBody response refresh)
               (setError None (setLoading true st)).

(** *** The events of the page *)

Inductive Event : Type :=
| TabClick (tab : TabType)
| HeaderClick (k : string)
| SearchInput (text : string)
| SelectAllClick
| RowCheckboxClick (id : string)
| DeleteClick (confirmed : bool)
    (response : Settled (FetchResponse (list Outcome)))
    (refresh : FetchOutcome)
| RefreshClick (outcome : FetchOutcome).

Definition handle (ev : Event) (st : State) : State :=
  match ev with
  | TabClick tab =>
      setSortConfig None
        (setSearchTerm "" (setSelectedItems [] (setActiveTab tab st)))
  | HeaderClick k => handleSort k st
  | SearchInput text => setSearchTerm text st
  | SelectAllClick => handleSelectAll st
  | RowCheckboxClick id => handleSelectItem id st
  | DeleteClick confirmed response refresh =>
      handleDelete confirmed response refresh st
  | RefreshClick outcome => fetchData outcome st
  end.

End Locale.

(** The five pieces of fetched data are the same in two states. *)
Definition sameData (st st' : State) : Prop :=
  containers st' = containers st /\
  images st' = images st /\
  volumes st' = volumes st /\
  networks st' = networks st /\
  systemInfo st' = systemInfo st.

(** Rows and states for the scenarios. *)
Definition container (id name : string) (size : Z) : Container.t :=
  {| Container.id := id; Container.names := [name];
     Container.image := "nginx:latest"; Container.state := "running";
     Container.status := "Up 2 hours"; Container.created := 1700000000;
     Container.size := size |}.

Definition okResponse {A : Type} (body : A) : FetchResponse A :=
  {| ok := true; json := Fulfilled body |}.

Definition noUsage : SystemInfo :=
  {| infoImages := {| count := 0; totalSize := 0 |};
     infoContainers := {| count := 0; totalSize := 0 |};
     infoVolumes := {| count := 0; totalSize := 0 |} |}.

(** Two containers on the containers tab, both selected. *)
Definition twoSelected : State :=
  setSelectedItems ["c1"; "c2"]
    (setContainers [container "c1" "/alpha" 100; container "c2" "/beta" 50]
       initialState).

(** The refresh after [c1] was removed and [c2] was not. *)
Definition refreshAfterDelete : FetchOutcome :=
  Fulfilled
    {| containersRes := okResponse [container "c2" "/beta" 50];
       imagesRes := okResponse [];
       volumesRes := okResponse [];
       networksRes := okResponse [];
       systemRes := okResponse noUsage |}.

Definition image (id : string) (tags : list string) (size : Z) : Image.t :=
  {| Image.id := id; Image.repoTags := tags; Image.created := 1700000000;
     Image.size := size; Image.virtualSize := Some size;
     Image.containers := None |}.

(** The images tab with a tagged and a dangling image, searched for the
    tag. *)
Definition imagesSearched : State :=
  setSearchTerm "x:latest"
    (setImages [image "sha256:aaa" ["x:latest"] 100; image "sha256:bbb" [] 50]
       (setActiveTab imagesTab initialState)).

(** Three containers, two of one size, sorted by size. *)
Definition threeBySize : State :=
  setSortConfig (Some {| key := "size"; direction := asc |})
    (setContainers [container "c1" "/alpha" 100; container "c2" "/beta" 50;
                    container "c3" "/gamma" 100]
       initialState).

(** A collation for concrete runs: comparison by code units. *)
Definition codeUnitCompare (s t : string) : Z :=
  match String.compare s t with
  | Lt => -1
  | Eq => 0
  | Gt => 1
  end.

End Client.

(* ===================================================================== *)
(** ** The gateway's list endpoints, usage summary and engine handle *)
(* ===================================================================== *)

Module Inventory.
Import Js.

(** What the engine reports, restricted to the fields the handlers read.
    A field that dockerode may leave [undefined] or [null] is an
    [option]. *)
Module ContainerInfo.
Record t : Type := {
  Id : string;
  Names : list string;
  Image : string;
  State : string;
  Status : string;
  Created : Z;
  SizeRw : option Z
}.
End ContainerInfo.

Module ImageInfo.
Record t : Type := {
  Id : string;
  RepoTags : option (list string);
  Created : Z;
  Size : Z;
  VirtualSize : option Z;
  Containers : option Z
}.
End ImageInfo.

Module NetworkInfo.
Record t : Type := {
  Id : string;
  Name : string;
  Driver : string;
  Scope : string;
  Internal : bool;
  Created : option string
}.
End NetworkInfo.

(** [c.json(body)] or [c.json({ error }, status)]. *)
Inductive Reply (A : Type) : Type :=
| Ok (body : A)
| Fail (status : nat) (message : string).

Arguments Ok {A} body.
Arguments Fail {A} status message.

(** The record built for one container; the JSON is what the client reads
    as a [Container]. *)
Definition containerDetail (container : ContainerInfo.t) : Client.Container.t :=
  {| Client.Container.id := ContainerInfo.Id container;
     Client.Container.names := ContainerInfo.Names container;
     Client.Container.image := ContainerInfo.Image container;
     Client.Container.state := ContainerInfo.State container;
     Client.Container.status := ContainerInfo.Status container;
     Client.Container.created := ContainerInfo.Created container;
     Client.Container.size := orZero (ContainerInfo.SizeRw container) |}.

(** [app.get('/api/containers')], given what
    [docker.listContainers({ all: true })] settles to. *)
Definition getContainers (listed : Settled (list ContainerInfo.t))
  : Reply (list Client.Container.t) :=
  match listed with
  | Fulfilled containers => Ok (map containerDetail containers)
  | Rejected _ => Fail 500 "Failed to fetch containers"
  end.

(** [image.RepoTags || []] *)
Definition orNoTags (tags : option (list string)) : list string :=
  match tags with Some l => l | None => [] end.

Definition imageDetail (image : ImageInfo.t) : Client.Image.t :=
  {| Client.Image.id := ImageInfo.Id image;
     Client.Image.repoTags := orNoTags (ImageInfo.RepoTags image);
     Client.Image.created := ImageInfo.Created image;
     Client.Image.size := ImageInfo.Size image;
     Client.Image.virtualSize := ImageInfo.VirtualSize image;
     Client.Image.containers := ImageInfo.Containers image |}.

(** [app.get('/api/images')], given what [docker.listImages({ all: true })]
    settles to. *)
Definition getImages (listed : Settled (list ImageInfo.t))
  : Reply (list Client.Image.t) :=
  match listed with
  | Fulfilled images => Ok (map imageDetail images)
  | Rejected _ => Fail 500 "Failed to fetch images"
  end.

Definition networkDetail (network : NetworkInfo.t) : Client.Network.t :=
  {| Client.Network.id := NetworkInfo.Id network;
     Client.Network.name := NetworkInfo.Name network;
     Client.Network.driver := NetworkInfo.Driver network;
     Client.Network.scope := NetworkInfo.Scope network;
     Client.Network.internal := NetworkInfo.Internal network;
     Client.Network.created := NetworkInfo.Created network |}.

(** [app.get('/api/networks')], given what [docker.listNetworks()] settles
    to. *)
Definition getNetworks (listed : Settled (list NetworkInfo.t))
  : Reply (list Client.Network.t) :=
  match listed with
  | Fulfilled networks => Ok (map networkDetail networks)
  | Rejected _ => Fail 500 "Failed to fetch networks"
  end.

(** The volume record as the client reads it. *)
Definition volumeRow (v : Gateway.VolumeDetail) : Client.Volume.t :=
  {| Client.Volume.name := Gateway.name v;
     Client.Volume.driver := Gateway.driver v;
     Client.Volume.mountpoint := Gateway.mountpoint v;
     Client.Volume.created := Gateway.created v;
     Client.Volume.size := Gateway.size v;
     Client.Volume.refCount := Gateway.refCount v |}.

(** *** The usage summary *)

(** The entries of the [Images] and [Containers] sections of [df()]. *)
Record DfImage : Type := { imageSize : option Z }.
Record DfContainer : Type := { containerSizeRw : option Z }.

Record DiskUsage : Type := {
  Images : option (list DfImage);
  Containers : option (list DfContainer);
  Volumes : option (list Gateway.EngineVolume)
}.

(** [section?.length || 0] *)
Definition sectionCount {A : Type} (section : option (list A)) : Z :=
  orZero (option_map (fun l => Z.of_nat (List.length l)) section).

(** [section?.reduce((acc, x) => acc + (figure(x) || 0), 0) || 0] *)
Definition sectionSize {A : Type} (figure : A -> option Z)
    (section : option (list A)) : Z :=
  orZero
    (option_map
       (fun l => fold_left (fun acc x => acc + orZero (figure x)) l 0)
       section).

(** [vol.UsageData?.Size] *)
Definition volumeFigure (vol : Gateway.EngineVolume) : option Z :=
  option_map Gateway.Size (Gateway.UsageData vol).

(** [app.get('/api/system')], given what [docker.df()] settles to. *)
Definition getSystem (report : Settled DiskUsage) : Reply Client.SystemInfo :=
  match report with
  | Fulfilled df =>
      Ok {| Client.infoImages :=
              {| Client.count := sectionCount (Images df);
                 Client.totalSize := sectionSize imageSize (Images df) |};
            Client.infoContainers :=
              {| Client.count := sectionCount (Containers df);
                 Client.totalSize :=
                   sectionSize containerSizeRw (Containers df) |};
            Client.infoVolumes :=
              {| Client.count := sectionCount (Volumes df);
                 Client.totalSize := sectionSize volumeFigure (Volumes df) |} |}
  | Rejected _ => Fail 500 "Failed to fetch system info"
  end.

(** *** The engine handle *)

(** The module-level [docker] variable: unset, or the handle created for a
    socket path. *)
Definition Handle : Type := option string.

(** [DOCKER_SOCKET_PATH || '/var/run/docker.sock'] *)
Definition socketPath (env : option string) : string :=
  match env with
  | Some path => if String.eqb path "" then "/var/run/docker.sock" else path
  | None => "/var/run/docker.sock"
  end.

(** The middleware run before every request: [env] is the request's
    [DOCKER_SOCKET_PATH]. *)
Definition ensureDocker (env : option string) (docker : Handle) : Handle :=
  match docker with
  | Some _ => docker
  | None => Some (socketPath env)
  end.

(** The handle after a sequence of requests. *)
Definition afterRequests (envs : list (option string)) (docker : Handle)
  : Handle :=
  fold_left (fun d env => ensureDocker env d) envs docker.

(** Engines and reports for the scenarios.  The first report names the
    volume [data] twice; the second describes the two listed volumes, in
    another order than the listing. *)
Definition twiceReported : Gateway.Script :=
  {| Gateway.refusals := [];
     Gateway.volumeList :=
       Fulfilled {| Gateway.listedVolumes :=
                      Some [Gateway.dataVolume None] |};
     Gateway.usageReport :=
       Fulfilled
         {| Gateway.dfVolumes :=
              Some [Gateway.dataVolume
                      (Some {| Gateway.Size := 10; Gateway.RefCount := 0 |});
                    Gateway.dataVolume
                      (Some {| Gateway.Size := 2048;
                               Gateway.RefCount := 1 |})] |} |}.

Definition bothReported : list Gateway.EngineVolume :=
  [ {| Gateway.Name := "cache"; Gateway.Driver := "local";
       Gateway.Mountpoint := "/var/lib/docker/volumes/cache/_data";
       Gateway.CreatedAt := None;
       Gateway.UsageData :=
         Some {| Gateway.Size := 5; Gateway.RefCount := 0 |} |};
    Gateway.dataVolume
      (Some {| Gateway.Size := 2048; Gateway.RefCount := 1 |}) ].

Definition agreeing : Gateway.Script :=
  {| Gateway.refusals := [];
     Gateway.volumeList :=
       Fulfilled {| Gateway.listedVolumes :=
                      Some [Gateway.dataVolume None; Gateway.cacheVolume] |};
     Gateway.usageReport :=
       Fulfilled {| Gateway.dfVolumes := Some bothReported |} |}.

Definition agreeingUsage : DiskUsage :=
  {| Images := None; Containers := Some []; Volumes := Some bothReported |}.

Definition danglingImage : ImageInfo.t :=
  {| ImageInfo.Id := "sha256:bbb"; ImageInfo.RepoTags := None;
     ImageInfo.Created := 1700000000; ImageInfo.Size := 50;
     ImageInfo.VirtualSize := None; ImageInfo.Containers := None |}.

End Inventory.

(* ===================================================================== *)
(** ** A delete from the client through the gateway *)
(* ===================================================================== *)

Module Wire.
Import Js.

(** [`${API_BASE}/${activeTab}`] names the endpoint of the same kind. *)
Definition kindOf (tab : Client.TabType) : Gateway.Kind :=
  match tab with
  | Client.containersTab => Gateway.Containers
  | Client.imagesTab => Gateway.Images
  | Client.volumesTab => Gateway.Volumes
  | Client.networksTab => Gateway.Networks
  end.

(** The key a handler destructures from the body: [names] on the volume
    endpoint, [ids] on the others. *)
Definition expectedKey (k : Gateway.Kind) : Client.BodyKey :=
  match k with
  | Gateway.Volumes => Client.names
  | _ => Client.ids
  end.

(** [const { ids } = await c.req.json()]: the array under the expected
    key, or nothing to iterate when the body has another key. *)
Definition destructure (k : Gateway.Kind) (req : Client.DeleteRequest)
  : Gateway.DeleteBody :=
  match expectedKey k, Client.bodyKey req with
  | Client.ids, Client.ids | Client.names, Client.names =>
      Some (Client.identifiers req)
  | _, _ => None
  end.

(** The gateway's answer to a client's delete request. *)
Definition serveDelete {E : Type} {D : Gateway.Docker E}
    (req : Client.DeleteRequest) (e : E) : E * Gateway.Response :=
  Gateway.handleDeleteRequest (kindOf (Client.endpoint req))
    (destructure (kindOf (Client.endpoint req)) req) e.

(** What the client reads of a result entry. *)
Definition outcomeOf (r : Gateway.DeleteResult) : Client.Outcome :=
  {| Client.success := Gateway.success r |}.

(** What [handleDelete] sees of the gateway's answer: [response.ok] is
    false for status 500; a body without [results] makes
    [result.results.filter] throw. *)
Definition received (r : Gateway.Response)
  : Client.FetchResponse (list Client.Outcome) :=
  match r with
  | Gateway.DeleteResults results =>
      {| Client.ok := true;
         Client.json := Fulfilled (map outcomeOf results) |}
  | Gateway.VolumeDetails _ =>
      {| Client.ok := true; Client.json := Rejected OtherValue |}
  | Gateway.Failure _ _ =>
      {| Client.ok := false; Client.json := Rejected OtherValue |}
  end.

(** What [fetchData] sees of a list endpoint's reply: [ok] is false for
    status 500, whose body is not read. *)
Definition fetched {A : Type} (r : Inventory.Reply A) : Client.FetchResponse A :=
  match r with
  | Inventory.Ok body => {| Client.ok := true; Client.json := Fulfilled body |}
  | Inventory.Fail _ _ =>
      {| Client.ok := false; Client.json := Rejected OtherValue |}
  end.

(** The five responses of a refresh, given what the engine's list calls
    and usage report settle to; the volumes response is left open. *)
Definition refreshFrom
    (containers : Settled (list Inventory.ContainerInfo.t))
    (images : Settled (list Inventory.ImageInfo.t))
    (volumesRes : Client.FetchResponse (list Client.Volume.t))
    (networks : Settled (list Inventory.NetworkInfo.t))
    (usage : Settled Inventory.DiskUsage) : Client.FetchOutcome :=
  Fulfilled
    {| Client.containersRes := fetched (Inventory.getContainers containers);
       Client.imagesRes := fetched (Inventory.getImages images);
       Client.volumesRes := volumesRes;
       Client.networksRes := fetched (Inventory.getNetworks networks);
       Client.systemRes := fetched (Inventory.getSystem usage) |}.

End Wire.

(* ===================================================================== *)
(** ** What the page shows *)
(* ===================================================================== *)

Module View.
Import Js Client.

(** [image.id.substring(7, 19)] *)
Definition shortId (id : string) : string := String.substring 7 12 id.

(** [container.names.map(name => name.replace('/', '')).join(', ')] *)
Definition nameCell (c : Container.t) : string :=
  String.concat ", " (map (replace "/" "") (Container.names c)).

(** The tags shown for an image: its tags, or the [<none>] placeholder. *)
Definition tagCells (i : Image.t) : list string :=
  if (0 <? List.length (Image.repoTags i))%nat then Image.repoTags i
  else ["<none>"].

(** [disabled={selectedItems.size === 0 || loading}] on the delete
    button. *)
Definition deleteDisabled (st : State) : bool :=
  Nat.eqb (setSize (selectedItems st)) 0 || loading st.

(** [checked={selectedItems.has(id)}] on a row's checkbox. *)
Definition rowChecked (id : string) (st : State) : bool :=
  setHas id (selectedItems st).

(** The columns whose header the table offers and whose field is always a
    number. *)
Definition numericColumns (tab : TabType) : list string :=
  match tab with
  | containersTab => ["created"; "size"]
  | imagesTab => ["created"; "size"]
  | volumesTab => ["size"; "refCount"]
  | networksTab => []
  end.

Section Locale.
Variable localeCompare : string -> string -> Z.

(** [checked={selectedItems.size === items.length && items.length > 0}] on
    the header checkbox; the same test picks the label [Deselect All]. *)
Definition selectAllChecked (st : State) : bool :=
  Nat.eqb (setSize (selectedItems st))
    (List.length (getSortedAndFilteredItems localeCompare st)) &&
  (0 <? List.length (getSortedAndFilteredItems localeCompare st))%nat.

(** The states the page can be in: the initial one and those the events
    lead to. *)
Inductive reachable : State -> Prop :=
| reachable_initial : reachable initialState
| reachable_handle ev st :
    reachable st -> reachable (handle localeCompare ev st).

End Locale.

End View.

(* ===================================================================== *)
(** ** Properties of the gateway *)
(* ===================================================================== *)

Section GatewayFacts.
Import Js Gateway.

Context {E : Type} {D : Docker E}.

Lemma removeAll_acc k opts l ids : forall acc (e : E),
  removeAll k opts l ids acc e =
  (fst (removeAll k opts l ids [] e),
   acc ++ snd (removeAll k opts l ids [] e)).
Proof.
  induction ids as [|id rest IH]; intros acc e; simpl.
  - now rewrite app_nil_r.
  - destruct (attempt k opts l id e) as [e1 r].
    rewrite (IH (acc ++ [r])), (IH [r]); simpl.
    now rewrite <- app_assoc.
Qed.

Lemma removeAll_cons k opts l id rest (e : E) :
  removeAll k opts l (id :: rest) [] e =
  (fst (removeAll k opts l rest [] (fst (attempt k opts l id e))),
   snd (attempt k opts l id e)
     :: snd (removeAll k opts l rest [] (fst (attempt k opts l id e)))).
Proof.
  simpl. destruct (attempt k opts l id e) as [e1 r]; simpl.
  now rewrite removeAll_acc.
Qed.

(** The loop over a concatenation is the loop over the first part followed
    by the loop over the second, whatever the first part's outcomes. *)
Lemma removeAll_app k opts l ids1 : forall ids2 (e : E),
  removeAll k opts l (ids1 ++ ids2) [] e =
  (fst (removeAll k opts l ids2 [] (fst (removeAll k opts l ids1 [] e))),
   snd (removeAll k opts l ids1 [] e)
     ++ snd (removeAll k opts l ids2 [] (fst (removeAll k opts l ids1 [] e)))).
Proof.
  induction ids1 as [|id rest IH]; intros ids2 e.
  - simpl. now destruct (removeAll k opts l ids2 [] e).
  - rewrite <- app_comm_cons, !removeAll_cons, IH. reflexivity.
Qed.

Lemma attempt_ident k opts l id (e : E) :
  ident (snd (attempt k opts l id e)) = id.
Proof.
  unfold attempt. now destruct (remove k id opts e) as [e' [[]|t]].
Qed.

Lemma removeAll_idents k opts l ids : forall (e : E),
  map ident (snd (removeAll k opts l ids [] e)) = ids.
Proof.
  induction ids as [|id rest IH]; intros e.
  - reflexivity.
  - rewrite removeAll_cons; simpl. now rewrite attempt_ident, IH.
Qed.

Lemma removeAll_nth k opts l ids : forall (e : E) i id,
  nth_error ids i = Some id ->
  nth_error (snd (removeAll k opts l ids [] e)) i =
  Some (snd (attempt k opts l id
               (fst (removeAll k opts l (firstn i ids) [] e)))).
Proof.
  induction ids as [|a rest IH]; intros e i id Hi.
  - now destruct i.
  - rewrite removeAll_cons. destruct i as [|i]; simpl in Hi.
    + injection Hi as ->. reflexivity.
    + simpl firstn. rewrite removeAll_cons. simpl. now apply IH.
Qed.

(** The options each delete endpoint passes on, read off the handlers. *)
Lemma handleDeleteRequest_loop k ids (e : E) :
  handleDeleteRequest k (Some ids) e =
  (fst (removeAll k (match k with
                     | Networks => None
                     | _ => Some {| force := true |}
                     end)
          (match k with Volumes => KeyName | _ => KeyId end) ids [] e),
   DeleteResults
     (snd (removeAll k (match k with
                        | Networks => None
                        | _ => Some {| force := true |}
                        end)
             (match k with Volumes => KeyName | _ => KeyId end) ids [] e))).
Proof.
  destruct k; simpl;
    unfold deleteContainers, deleteImages, deleteVolumes, deleteNetworks;
    now destruct (removeAll _ _ _ ids [] e).
Qed.

End GatewayFacts.

Section RecordedCalls.
Import Js Gateway.

Context {E : Type} {D : Docker E}.

(** The recording engine answers as the engine it wraps. *)
Lemma recording_transparent k opts l ids :
  forall acc (e : E) (log : list RemoveCall),
  fst (fst (removeAll (H := recording D) k opts l ids acc (e, log))) =
    fst (removeAll k opts l ids acc e) /\
  snd (removeAll (H := recording D) k opts l ids acc (e, log)) =
    snd (removeAll k opts l ids acc e).
Proof.
  induction ids as [|id rest IH]; intros acc e log; simpl.
  - split; reflexivity.
  - unfold attempt; simpl.
    destruct (remove k id opts e) as [e' [[]|t]]; apply IH.
Qed.

Lemma removeAll_recorded k opts l ids :
  forall acc (e : E) (log : list RemoveCall),
  snd (fst (removeAll (H := recording D) k opts l ids acc (e, log))) =
  log ++ map (fun id => {| callKind := k; callTarget := id;
                           callOptions := opts |}) ids.
Proof.
  induction ids as [|id rest IH]; intros acc e log; simpl.
  - now rewrite app_nil_r.
  - unfold attempt; simpl.
    destruct (remove k id opts e) as [e' [[]|t]];
      rewrite IH, <- app_assoc; reflexivity.
Qed.

(** C1. A delete request carrying [ids] is answered with exactly one
    outcome entry per identifier, in the order of [ids].  The entry at
    position [i] carries the identifier and reports what the engine
    answered to that identifier's removal, issued once the removals of the
    identifiers before it have been attempted, whether they succeeded or
    not: success, or failure with the message of the engine's error.  The
    engine is asked to remove every identifier, in order, and nothing
    depends on how many removals fail. *)
Theorem delete_returns_one_outcome_per_identifier
    (k : Kind) (ids : list string) (e : E) :
  exists results,
    snd (handleDeleteRequest k (Some ids) e) = DeleteResults results /\
    List.length results = List.length ids /\
    map ident results = ids /\
    map callTarget
      (snd (fst (handleDeleteRequest (H := recording D) k (Some ids) (e, []))))
      = ids /\
    forall i id, nth_error ids i = Some id ->
      exists r,
        nth_error results i = Some r /\
        ident r = id /\
        match snd (remove k id
                     (match k with
                      | Networks => None
                      | _ => Some {| force := true |}
                      end)
                     (fst (handleDeleteRequest k (Some (firstn i ids)) e)))
        with
        | Fulfilled _ => success r = true /\ error r = None
        | Rejected t => success r = false /\ error r = messageOf t
        end.
Proof.
  rewrite !handleDeleteRequest_loop; simpl snd; simpl fst.
  set (opts := match k with Networks => None | _ => Some {| force := true |} end).
  set (l := match k with Volumes => KeyName | _ => KeyId end).
  exists (snd (removeAll k opts l ids [] e)).
  split; [reflexivity|].
  assert (Hids : map ident (snd (removeAll k opts l ids [] e)) = ids)
    by apply removeAll_idents.
  split; [|split; [exact Hids|split]].
  - rewrite <- Hids at 2. now rewrite length_map.
  - rewrite removeAll_recorded. simpl. rewrite map_map. simpl.
    apply map_id.
  - intros i id Hi.
    rewrite handleDeleteRequest_loop; simpl fst. fold opts l.
    rewrite (removeAll_nth k opts l ids e i Hi).
    eexists; split; [reflexivity|]. split; [apply attempt_ident|].
    unfold attempt.
    now destruct (remove k id opts _) as [e' [[]|t]].
Qed.

(** C8. The removals a bulk delete issues to the engine, one per
    identifier and in order, carry [{force: true}] on the container, image
    and volume endpoints and no options on the network endpoint. *)
Theorem bulk_delete_force_only_outside_networks
    (ids : list string) (e : E) (log : list RemoveCall) :
  let issued k :=
    snd (fst (handleDeleteRequest (H := recording D) k (Some ids) (e, log))) in
  let call k opts id :=
    {| callKind := k; callTarget := id; callOptions := opts |} in
  issued Containers =
    log ++ map (call Containers (Some {| force := true |})) ids /\
  issued Images = log ++ map (call Images (Some {| force := true |})) ids /\
  issued Volumes = log ++ map (call Volumes (Some {| force := true |})) ids /\
  issued Networks = log ++ map (call Networks None) ids.
Proof.
  cbv zeta. repeat split;
    rewrite handleDeleteRequest_loop; simpl fst; apply removeAll_recorded.
Qed.

End RecordedCalls.

(** *** The volume listing *)

Section VolumeListingFacts.
Import Js Gateway.

Context {E : Type} {D : Docker E}.

Lemma mapGet_mapSet_same {V} k (v : V) m : mapGet k (mapSet k v m) = Some v.
Proof.
  induction m as [|[k' v'] m IH]; simpl.
  - now rewrite String.eqb_refl.
  - destruct (String.eqb k' k) eqn:Hk; simpl; now rewrite Hk.
Qed.

Lemma mapGet_mapSet_other {V} k k' (v : V) m :
  k' <> k -> mapGet k (mapSet k' v m) = mapGet k m.
Proof.
  intros Hne. induction m as [|[k0 v0] m IH]; simpl.
  - destruct (String.eqb k' k) eqn:Hk; [|reflexivity].
    now apply String.eqb_eq in Hk.
  - destruct (String.eqb k0 k') eqn:H0; simpl.
    + apply String.eqb_eq in H0; subst k0.
      destruct (String.eqb k' k) eqn:Hk; [|reflexivity].
      now apply String.eqb_eq in Hk.
    + now rewrite IH.
Qed.

Lemma collect_fold_absent k vols : forall m : JsMap Z,
  (forall vol, In vol vols -> Name vol <> k) ->
  mapGet k
    (fold_left
       (fun m vol => mapSet (Name vol) (orZero (option_map Size (UsageData vol))) m)
       vols m) = mapGet k m.
Proof.
  induction vols as [|vol rest IH]; intros m Habs; simpl.
  - reflexivity.
  - rewrite IH by (intros; apply Habs; now right).
    apply mapGet_mapSet_other, Habs; now left.
Qed.

Lemma collectSizes_absent k vols :
  (forall vol, In vol vols -> Name vol <> k) ->
  mapGet k (collectSizes vols) = None.
Proof.
  intros Habs. unfold collectSizes. now rewrite collect_fold_absent.
Qed.

(** The map holds, under a name, the figure of the last entry of that
    name. *)
Lemma collectSizes_last pre entry post :
  (forall vol, In vol post -> Name vol <> Name entry) ->
  mapGet (Name entry) (collectSizes (pre ++ entry :: post)) =
  Some (orZero (option_map Size (UsageData entry))).
Proof.
  intros Hlast. unfold collectSizes.
  rewrite fold_left_app; simpl.
  rewrite collect_fold_absent by exact Hlast.
  apply mapGet_mapSet_same.
Qed.

Lemma collectSizes_unique entries entry :
  NoDup (map Name entries) -> In entry entries ->
  mapGet (Name entry) (collectSizes entries) =
  Some (orZero (option_map Size (UsageData entry))).
Proof.
  intros Hnd Hin.
  destruct (in_split _ _ Hin) as (pre & post & ->).
  apply collectSizes_last.
  rewrite map_app in Hnd; simpl in Hnd.
  apply NoDup_remove_2 in Hnd.
  intros vol Hvol Heq. apply Hnd, in_or_app; right.
  rewrite <- Heq. now apply in_map.
Qed.

Lemma orZero_some z : orZero (Some z) = z.
Proof. unfold orZero. destruct (Z.eqb_spec z 0); congruence. Qed.

(** C9. When both engine calls succeed, the volume endpoint returns one
    record per listed volume, in order and under the volume's name.  Its
    [size] is 0 when the disk-usage report has no volume section or no
    entry of the volume's name, and otherwise, the report naming each
    volume once, the [Size] figure of the entry of that name (0 when that
    entry carries no usage data). *)
Theorem volume_size_joined_by_name
    (e e1 e2 : E) (listing : VolumeListing) (report : DfReport)
    (vols : list EngineVolume) :
  listVolumes e = (e1, Fulfilled listing) ->
  df e1 = (e2, Fulfilled report) ->
  listedVolumes listing = Some vols ->
  exists details,
    getVolumes e = (e2, VolumeDetails details) /\
    Forall2
      (fun volume detail =>
         name detail = Name volume /\
         (dfVolumes report = None -> size detail = 0) /\
         (forall entries, dfVolumes report = Some entries ->
            ((forall entry, In entry entries -> Name entry <> Name volume) ->
             size detail = 0) /\
            (forall entry, NoDup (map Name entries) -> In entry entries ->
               Name entry = Name volume ->
               match UsageData entry with
               | Some usage => size detail = Size usage
               | None => size detail = 0
               end)))
      vols details.
Proof.
  intros Hlist Hdf Hvols. unfold getVolumes.
  rewrite Hlist, Hdf, Hvols.
  eexists; split; [reflexivity|].
  induction vols as [|volume rest IH] in |- *; simpl; constructor; auto.
  split; [reflexivity|]. simpl. split.
  - intros ->. reflexivity.
  - intros entries ->. split.
    + intros Habs. now rewrite collectSizes_absent.
    + intros entry Hnd Hin Hname. rewrite <- Hname.
      rewrite collectSizes_unique by assumption.
      destruct (UsageData entry) as [usage|]; cbn [option_map].
      * rewrite orZero_some. apply orZero_some.
      * reflexivity.
Qed.

End VolumeListingFacts.

(** The scenario of a delete of [c1] and [c2] where the engine refuses
    [c2]. *)
Lemma delete_scenario_second_fails :
  exists r,
    nth_error
      (match snd (Gateway.handleDeleteRequest (H := Gateway.scripted)
                    Gateway.Containers (Some ["c1"; "c2"])
                    Gateway.scenarioEngine)
       with
       | Gateway.DeleteResults rs => rs
       | _ => []
       end) 1 = Some r /\
    Gateway.success r = false /\
    Gateway.error r = Some "container is running".
Proof.
  destruct (delete_returns_one_outcome_per_identifier
              (D := Gateway.scripted) Gateway.Containers ["c1"; "c2"]
              Gateway.scenarioEngine)
    as (results & Hres & _ & _ & _ & Hnth).
  destruct (Hnth 1%nat "c2" eq_refl) as (r & Hr & _ & Hout).
  exists r. rewrite Hres. split; [exact Hr|]. exact Hout.
Defined.

(** The volume listing of the scenario engine: [data] takes its size from
    the report, [cache] is not in the report. *)
Lemma volume_scenario_sizes :
  exists details,
    Gateway.getVolumes (H := Gateway.scripted) Gateway.scenarioEngine =
      (Gateway.scenarioEngine, Gateway.VolumeDetails details) /\
    map Gateway.size details = [2048; 0].
Proof.
  destruct (volume_size_joined_by_name (D := Gateway.scripted)
              Gateway.scenarioEngine eq_refl eq_refl eq_refl)
    as (details & Hget & Hall).
  exists details. split; [exact Hget|].
  inversion Hall as [|v1 d1 vs ds (_ & _ & H1) Hrest]; subst.
  inversion Hrest as [|v2 d2 vs' ds' (_ & _ & H2) Hnil]; subst.
  inversion Hnil; subst.
  destruct (H1 _ eq_refl) as [_ H1b].
  destruct (H2 _ eq_refl) as [H2a _].
  specialize (H1b (Gateway.dataVolume
                     (Some {| Gateway.Size := 2048; Gateway.RefCount := 1 |}))).
  simpl in H1b. simpl.
  rewrite H1b, H2a; try reflexivity.
  - intros entry [<-|[]]. discriminate.
  - repeat constructor. intros [].
  - now left.
Defined.

(* ===================================================================== *)
(** ** Properties of the runtime model *)
(* ===================================================================== *)

Section StringFacts.
Import Js.

Lemma prefix_spec t : forall s,
  String.prefix t s = true <-> exists post, s = (t ++ post)%string.
Proof.
  induction t as [|c t IH]; intros s.
  - destruct s; simpl; split; eauto.
  - destruct s as [|d s]; simpl.
    + split; [discriminate | intros [post Hp]; discriminate].
    + destruct (Ascii.ascii_dec c d) as [->|Hne].
      * rewrite IH. split; intros [post Hp]; exists post; congruence.
      * split; [discriminate | intros [post Hp]; congruence].
Qed.

(** [includes] decides the substring relation. *)
Lemma includes_spec t : forall s,
  includes s t = true <->
  exists pre post, s = (pre ++ t ++ post)%string.
Proof.
  induction s as [|c s IH]; cbn [includes].
  - rewrite orb_false_r, prefix_spec. split.
    + intros [post Hp]. now exists EmptyString, post.
    + intros (pre & post & Hp). destruct pre; [now exists post|discriminate].
  - rewrite orb_true_iff, prefix_spec, IH. split.
    + intros [[post Hp]|(pre & post & Hp)].
      * now exists EmptyString, post.
      * exists (String c pre), post. simpl. now rewrite Hp.
    + intros (pre & post & Hp). destruct pre as [|d pre]; simpl in Hp.
      * left. now exists post.
      * right. exists pre, post. congruence.
Qed.

Lemma includes_empty s : includes s "" = true.
Proof. apply includes_spec. now exists EmptyString, s. Qed.

Lemma lowerChar_idempotent c : lowerChar (lowerChar c) = lowerChar c.
Proof.
  destruct c as [[] [] [] [] [] [] [] []]; reflexivity.
Qed.

Lemma toLowerCase_idempotent s : toLowerCase (toLowerCase s) = toLowerCase s.
Proof.
  induction s as [|c s IH]; simpl; [reflexivity|].
  now rewrite lowerChar_idempotent, IH.
Qed.

(** Removing the first ["/"] of a name that starts with one strips exactly
    that leading character. *)
Lemma replace_leading_slash rest :
  replace "/" "" ("/" ++ rest) = rest.
Proof. destruct rest; reflexivity. Qed.

End StringFacts.

Section SetFacts.
Import Js.

Lemma setHas_spec x s : setHas x s = true <-> In x s.
Proof.
  unfold setHas. rewrite existsb_exists. split.
  - intros (y & Hy & Heq). apply String.eqb_eq in Heq. now subst.
  - intros Hin. exists x. split; [assumption|apply String.eqb_refl].
Qed.

Lemma setAdd_spec x y s : In y (setAdd x s) <-> y = x \/ In y s.
Proof.
  unfold setAdd. destruct (setHas x s) eqn:Hx.
  - apply setHas_spec in Hx. split; [now right|]. intros [->|]; assumption.
  - rewrite in_app_iff; simpl. intuition.
Qed.

Lemma setDelete_spec x y s : In y (setDelete x s) <-> In y s /\ y <> x.
Proof.
  unfold setDelete. rewrite filter_In, negb_true_iff.
  split; intros [Hin Hne]; split; try assumption.
  - intros ->. now rewrite String.eqb_refl in Hne.
  - destruct (String.eqb_spec y x); congruence.
Qed.

Lemma setOf_fold l : forall s y,
  In y (fold_left (fun s x => setAdd x s) l s) <-> In y s \/ In y l.
Proof.
  induction l as [|x l IH]; intros s y; simpl.
  - intuition.
  - rewrite IH, setAdd_spec. intuition.
Qed.

(** [new Set(array)] holds exactly the elements of the array. *)
Lemma setOf_spec l y : In y (setOf l) <-> In y l.
Proof. unfold setOf. rewrite setOf_fold. simpl. intuition. Qed.

End SetFacts.

Section SortFacts.
Import Js.

Variable A : Type.
Variable compare : A -> A -> Z.

Lemma insertSorted_perm x l : Permutation (x :: l) (insertSorted compare x l).
Proof.
  induction l as [|y l IH]; simpl.
  - reflexivity.
  - destruct (compare x y <=? 0); [reflexivity|].
    rewrite perm_swap. now constructor.
Qed.

Lemma arraySort_perm l : Permutation l (arraySort compare l).
Proof.
  induction l as [|x l IH]; simpl.
  - constructor.
  - rewrite <- insertSorted_perm. now constructor.
Qed.

Lemma arraySort_length l : List.length (arraySort compare l) = List.length l.
Proof. symmetry. apply Permutation_length, arraySort_perm. Qed.

Lemma arraySort_In x l : In x (arraySort compare l) <-> In x l.
Proof.
  split; apply Permutation_in;
    [symmetry|]; apply arraySort_perm.
Qed.

(** Insertion leaves a class of elements in place when the new element,
    if it belongs to the class, only overtakes elements outside it. *)
Lemma insertSorted_filter (P : A -> bool) x l :
  (P x = true -> forall y, In y l -> 0 < compare x y -> P y = false) ->
  filter P (insertSorted compare x l) = filter P (x :: l).
Proof.
  induction l as [|y l IH]; intros Hover; [reflexivity|].
  simpl insertSorted. destruct (Z.leb_spec (compare x y) 0) as [Hle|Hgt].
  - reflexivity.
  - cbn [filter]. rewrite IH by (intros Hx z Hz; apply Hover; auto; now right).
    cbn [filter]. destruct (P x) eqn:Hx; [|reflexivity].
    now rewrite (Hover eq_refl y (or_introl eq_refl) Hgt).
Qed.

Variable universe : list A.
Hypothesis consistent : consistentOn compare universe.

Lemma equal_symmetric a b :
  In a universe -> In b universe -> compare a b = 0 -> compare b a = 0.
Proof.
  intros Ha Hb Hab. destruct consistent as [Hopp _].
  pose proof (Hopp a b Ha Hb). pose proof (Hopp b a Hb Ha). lia.
Qed.

(** Stability: the elements comparing equal to [a] keep their order. *)
Lemma arraySort_stable_within a l :
  In a universe -> incl l universe ->
  filter (fun b => compare a b =? 0) (arraySort compare l) =
  filter (fun b => compare a b =? 0) l.
Proof.
  intros Ha. induction l as [|x l IH]; intros Hincl; [reflexivity|].
  assert (Hx : In x universe) by (apply Hincl; now left).
  assert (Hl : incl l universe) by (intros z Hz; apply Hincl; now right).
  cbn [arraySort fold_right]. fold (arraySort compare l).
  rewrite insertSorted_filter.
  - cbn [filter]. now rewrite IH.
  - intros Hax y Hy Hxy.
    apply Z.eqb_eq in Hax. apply Z.eqb_neq. intros Hay.
    rewrite arraySort_In in Hy.
    assert (Hyu : In y universe) by (apply Hl; exact Hy).
    pose proof (equal_symmetric Ha Hx Hax) as Hxa.
    destruct consistent as [_ Htrans].
    pose proof (Htrans x a y Hx Ha Hyu). lia.
Qed.

Lemma insertSorted_HdRel x y l :
  HdRel (fun a b => compare a b <= 0) y l -> compare y x <= 0 ->
  HdRel (fun a b => compare a b <= 0) y (insertSorted compare x l).
Proof.
  intros Hhd Hyx. destruct l as [|z l]; simpl.
  - now constructor.
  - destruct (compare x z <=? 0); constructor; [assumption|].
    now inversion Hhd.
Qed.

Lemma insertSorted_sorted x l :
  In x universe -> incl l universe ->
  Sorted (fun a b => compare a b <= 0) l ->
  Sorted (fun a b => compare a b <= 0) (insertSorted compare x l).
Proof.
  intros Hx. induction l as [|y l IH]; intros Hincl Hs; simpl.
  - repeat constructor.
  - destruct (Z.leb_spec (compare x y) 0) as [Hle|Hgt].
    + constructor; [assumption|now constructor].
    + inversion Hs as [|? ? Hs' Hhd]; subst.
      assert (Hy : In y universe) by (apply Hincl; now left).
      constructor.
      * apply IH; [intros z Hz; apply Hincl; now right|assumption].
      * apply insertSorted_HdRel; [assumption|].
        destruct consistent as [Hopp _].
        pose proof (Hopp y x Hy Hx). lia.
Qed.

Lemma arraySort_sorted_within l :
  incl l universe ->
  Sorted (fun a b => compare a b <= 0) (arraySort compare l).
Proof.
  induction l as [|x l IH]; intros Hincl; simpl.
  - constructor.
  - apply insertSorted_sorted.
    + apply Hincl; now left.
    + intros z Hz. rewrite arraySort_In in Hz. apply Hincl; now right.
    + apply IH. intros z Hz; apply Hincl; now right.
Qed.

End SortFacts.

(* ===================================================================== *)
(** ** Properties of the client *)
(* ===================================================================== *)

Section RefreshFacts.
Import Js Client.

Lemma guarded_data body st :
  sameData (fst (body st)) (guarded body st).
Proof.
  unfold guarded. destruct (body st) as [st' [err|]]; repeat split.
Qed.

Lemma fetchData_failed_body outcome st t :
  fetchDataBody outcome (setError None (setLoading true st)) =
    (setError None (setLoading true st), Some t) ->
  sameData st (fetchData outcome st) /\
  error (fetchData outcome st) = Some (errorText t) /\
  loading (fetchData outcome st) = false.
Proof.
  intros Hbody. unfold fetchData, guarded. rewrite Hbody.
  repeat split.
Qed.

(** C4. A refresh awaits the five fetches together and commits nothing
    before all of them have answered with an ok status.  When the joint
    wait rejects, or when any of the five responses is not ok, the
    containers, images, volumes, networks and system data in state are
    exactly what they were, an error is shown and the loading flag is
    cleared.  When all five are ok and their bodies decode, the five
    pieces of data are replaced together and no error is shown. *)
Theorem refresh_commits_only_when_all_ok (outcome : FetchOutcome) (st : State) :
  (forall t, outcome = Rejected t ->
     sameData st (fetchData outcome st) /\
     error (fetchData outcome st) = Some (errorText t) /\
     loading (fetchData outcome st) = false) /\
  (forall rs, outcome = Fulfilled rs ->
     ok (containersRes rs) = false \/ ok (imagesRes rs) = false \/
     ok (volumesRes rs) = false \/ ok (networksRes rs) = false \/
     ok (systemRes rs) = false ->
     sameData st (fetchData outcome st) /\
     error (fetchData outcome st) = Some "Failed to fetch data" /\
     loading (fetchData outcome st) = false) /\
  (forall cs ims vs ns info,
     outcome = Fulfilled {| containersRes := okResponse cs;
                            imagesRes := okResponse ims;
                            volumesRes := okResponse vs;
                            networksRes := okResponse ns;
                            systemRes := okResponse info |} ->
     containers (fetchData outcome st) = cs /\
     images (fetchData outcome st) = ims /\
     volumes (fetchData outcome st) = vs /\
     networks (fetchData outcome st) = ns /\
     systemInfo (fetchData outcome st) = Some info /\
     error (fetchData outcome st) = None /\
     loading (fetchData outcome st) = false).
Proof.
  split; [|split].
  - intros t ->. now apply fetchData_failed_body.
  - intros rs -> Hbad.
    apply fetchData_failed_body with (t := ErrorObject "Failed to fetch data").
    unfold fetchDataBody.
    destruct (ok (containersRes rs)), (ok (imagesRes rs)),
      (ok (volumesRes rs)), (ok (networksRes rs)), (ok (systemRes rs));
      try reflexivity.
    exfalso. intuition discriminate.
  - intros cs ims vs ns info ->. repeat split.
Qed.

(** A refresh in which the images fetch answers 500 leaves the two
    containers of [twoSelected] in place. *)
Lemma refresh_images_500_keeps_data :
  sameData twoSelected
    (fetchData
       (Fulfilled
          {| containersRes := okResponse [];
             imagesRes := {| ok := false; json := Fulfilled [] |};
             volumesRes := okResponse [];
             networksRes := okResponse [];
             systemRes := okResponse noUsage |})
       twoSelected) /\
  error
    (fetchData
       (Fulfilled
          {| containersRes := okResponse [];
             imagesRes := {| ok := false; json := Fulfilled [] |};
             volumesRes := okResponse [];
             networksRes := okResponse [];
             systemRes := okResponse noUsage |})
       twoSelected) = Some "Failed to fetch data" /\
  loading
    (fetchData
       (Fulfilled
          {| containersRes := okResponse [];
             imagesRes := {| ok := false; json := Fulfilled [] |};
             volumesRes := okResponse [];
             networksRes := okResponse [];
             systemRes := okResponse noUsage |})
       twoSelected) = false.
Proof.
  apply (proj1 (proj2 (refresh_commits_only_when_all_ok _ twoSelected))
           _ eq_refl).
  right; left; reflexivity.
Defined.

(** The error a refresh leaves depends on the fetches alone, not on the
    error shown before it. *)
Lemma fetchData_error_fresh outcome st st' :
  error (fetchData outcome st) = error (fetchData outcome st').
Proof.
  unfold fetchData, guarded, fetchDataBody.
  destruct outcome as [rs|t]; [|reflexivity].
  destruct (negb (ok (containersRes rs)) || negb (ok (imagesRes rs)) ||
            negb (ok (volumesRes rs)) || negb (ok (networksRes rs)) ||
            negb (ok (systemRes rs))); [reflexivity|].
  unfold andThen, commitJson.
  destruct (json (containersRes rs)); [|reflexivity].
  destruct (json (imagesRes rs)); [|reflexivity].
  destruct (json (volumesRes rs)); [|reflexivity].
  destruct (json (networksRes rs)); [|reflexivity].
  destruct (json (systemRes rs)); reflexivity.
Qed.

(** After a delete that came back with per-item outcomes, the error shown
    is the one the nested refresh leaves, whatever the outcomes were. *)
Lemma handleDelete_error_from_refresh confirmed res results refresh st :
  setSize (selectedItems st) <> 0%nat -> confirmed = true ->
  ok res = true -> json res = Fulfilled results ->
  error (handleDelete confirmed (Fulfilled res) refresh st) =
  error (fetchData refresh st).
Proof.
  intros Hsel -> Hok Hjson. unfold handleDelete.
  destruct (Nat.eqb_spec (setSize (selectedItems st)) 0); [contradiction|].
  cbn [negb]. unfold guarded, handleDeleteBody. rewrite Hok, Hjson.
  cbn [negb]. cbn [error setLoading]. apply fetchData_error_fresh.
Qed.

(** The failure count is in state when the refresh starts. *)
Lemma recordOutcomes_scenario :
  error (recordOutcomes [ {| success := true |}; {| success := false |} ]
           (setError None (setLoading true twoSelected))) =
    Some "Failed to delete 1 items" /\
  selectedItems
    (recordOutcomes [ {| success := true |}; {| success := false |} ]
       (setError None (setLoading true twoSelected))) = [].
Proof. split; reflexivity. Qed.

(** C3. Deleting [c1] and [c2] where the response reports [c2] as failed:
    the selection is cleared and the data is refreshed, but no error is
    shown once the refresh has completed; the failure count set before
    the refresh has been reset by the refresh itself. *)
Theorem delete_failure_count_reset_by_refresh :
  let final :=
    handleDelete true
      (Fulfilled (okResponse [ {| success := true |};
                               {| success := false |} ]))
      refreshAfterDelete twoSelected in
  selectedItems final = [] /\
  containers final = [container "c2" "/beta" 50] /\
  loading final = false /\
  error final = None /\
  error final <> Some "Failed to delete 1 items".
Proof.
  cbv zeta. repeat split. discriminate.
Qed.

End RefreshFacts.

Section SortToggleFacts.
Import Js Client.

(** C5. Clicking a column header makes that column the sort key.  The
    direction becomes descending when the column was already the key in
    ascending direction, and ascending from every other prior state: no
    sort, another column, or the same column descending.  Repeated clicks
    on one header therefore alternate, starting with ascending on a fresh
    column, and a click on a different header gives ascending. *)
Theorem sort_header_click (k : string) (st : State) :
  (sortConfig st = Some {| key := k; direction := asc |} ->
   sortConfig (handleSort k st) = Some {| key := k; direction := desc |}) /\
  (sortConfig st = None ->
   sortConfig (handleSort k st) = Some {| key := k; direction := asc |}) /\
  (forall cfg, sortConfig st = Some cfg -> key cfg <> k ->
   sortConfig (handleSort k st) = Some {| key := k; direction := asc |}) /\
  (forall cfg, sortConfig st = Some cfg -> direction cfg = desc ->
   sortConfig (handleSort k st) = Some {| key := k; direction := asc |}) /\
  (sortConfig (handleSort k st) = Some {| key := k; direction := asc |} ->
   sortConfig (handleSort k (handleSort k st)) =
     Some {| key := k; direction := desc |} /\
   sortConfig (handleSort k (handleSort k (handleSort k st))) =
     Some {| key := k; direction := asc |}) /\
  (forall k', k' <> k ->
   sortConfig (handleSort k' (handleSort k st)) =
     Some {| key := k'; direction := asc |}).
Proof.
  unfold handleSort; simpl.
  split; [|split; [|split; [|split; [|split]]]].
  - intros ->. simpl. now rewrite String.eqb_refl.
  - now intros ->.
  - intros cfg -> Hne.
    destruct (String.eqb_spec (key cfg) k); [contradiction|reflexivity].
  - intros cfg -> ->. now rewrite andb_false_r.
  - intros Hfirst. injection Hfirst as ->.
    rewrite !String.eqb_refl. split; reflexivity.
  - intros k' Hne.
    destruct (String.eqb_spec k k'); [congruence|reflexivity].
Qed.

(** A second click on the [size] header turns ascending into descending. *)
Lemma sort_header_second_click :
  sortConfig
    (handleSort "size"
       (setSortConfig (Some {| key := "size"; direction := asc |})
          initialState)) =
  Some {| key := "size"; direction := desc |}.
Proof.
  apply (proj1 (sort_header_click "size"
                  (setSortConfig (Some {| key := "size"; direction := asc |})
                     initialState))).
  reflexivity.
Defined.

End SortToggleFacts.

Section TableFacts.
Import Js Client.

Variable localeCompare : string -> string -> Z.

Lemma filter_all {A} (f : A -> bool) l :
  (forall x, In x l -> f x = true) -> filter f l = l.
Proof.
  induction l as [|x l IH]; intros Hall; simpl; [reflexivity|].
  rewrite (Hall x (or_introl eq_refl)), IH; [reflexivity|].
  intros y Hy. apply Hall. now right.
Qed.

Lemma hit_empty field : hit (toLowerCase "") field = true.
Proof. apply includes_empty. Qed.

(** Every row of the active tab passes the filter of the empty search. *)
Lemma matchesSearch_empty st item :
  In item (tabItems st) -> matchesSearch (activeTab st) "" item = true.
Proof.
  unfold tabItems, matchesSearch.
  destruct (activeTab st); intros Hin; apply in_map_iff in Hin;
    destruct Hin as (x & <- & _);
    rewrite !hit_empty; now rewrite ?orb_true_r.
Qed.

Lemma hit_spec term field :
  hit (toLowerCase term) field = true <->
  exists pre post,
    toLowerCase field = (pre ++ toLowerCase term ++ post)%string.
Proof. apply includes_spec. Qed.

Lemma existsb_hit_spec term fields :
  existsb (hit (toLowerCase term)) fields = true <->
  exists field, In field fields /\
    exists pre post,
      toLowerCase field = (pre ++ toLowerCase term ++ post)%string.
Proof.
  rewrite existsb_exists.
  split; intros (field & Hin & Hhit); exists field; split; try assumption;
    now apply hit_spec.
Qed.

(** C7. The rows on display are the sort of the filtered collection: the
    search filter is applied to the active tab's fetched collection and
    the sort to what the filter lets through.  A row passes the filter
    when the search text, case folded, is a substring of one of the row's
    searched fields, case folded: for a container any of its names, its
    image reference or its status; for an image any of its tags or its
    id; for a volume or a network its name or its driver. *)
Theorem displayed_rows_are_sorted_filter (st : State) :
  getSortedAndFilteredItems localeCompare st =
    sortItems localeCompare st
      (filter (matchesSearch (activeTab st) (searchTerm st)) (tabItems st)) /\
  forall term,
    let found field :=
      exists pre post,
        toLowerCase field = (pre ++ toLowerCase term ++ post)%string in
    (forall c, matchesSearch containersTab term (ContainerItem c) = true <->
       (exists n, In n (Container.names c) /\ found n) \/
       found (Container.image c) \/ found (Container.status c)) /\
    (forall i, matchesSearch imagesTab term (ImageItem i) = true <->
       (exists tag, In tag (Image.repoTags i) /\ found tag) \/
       found (Image.id i)) /\
    (forall v, matchesSearch volumesTab term (VolumeItem v) = true <->
       found (Volume.name v) \/ found (Volume.driver v)) /\
    (forall n, matchesSearch networksTab term (NetworkItem n) = true <->
       found (Network.name n) \/ found (Network.driver n)).
Proof.
  split.
  - unfold getSortedAndFilteredItems, getFilteredItems.
    destruct (String.eqb_spec (searchTerm st) "") as [Hempty|_];
      [|reflexivity].
    rewrite Hempty, filter_all; [reflexivity|].
    intros item Hin. now apply matchesSearch_empty.
  - intros term found. unfold found, matchesSearch.
    split; [|split; [|split]]; intros row;
      rewrite ?orb_true_iff, ?existsb_hit_spec, ?hit_spec;
      tauto.
Qed.

(** *** Sorting *)

Lemma sortValue_plain tab k a :
  k <> "name" -> k <> "names" -> k <> "repoTags" ->
  sortValue tab k a =
  match getProp a k with
  | VNull | VUndefined => VString ""
  | _ => getProp a k
  end.
Proof.
  intros H1 H2 H3. unfold sortValue.
  destruct (String.eqb_spec k "name"); [contradiction|].
  destruct (String.eqb_spec k "names"); [contradiction|].
  destruct (String.eqb_spec k "repoTags"); [contradiction|].
  reflexivity.
Qed.

(** On a numeric column the comparator is consistent, whatever the
    collation. *)
Lemma numeric_column_consistent tab cfg items :
  (forall a, In a items -> exists n, sortValue tab (key cfg) a = VNumber n) ->
  consistentOn (compareItems localeCompare tab cfg) items.
Proof.
  intros Hnum. unfold compareItems. split.
  - intros a b Ha Hb.
    destruct (Hnum a Ha) as [m ->], (Hnum b Hb) as [n ->]. simpl.
    destruct (isAsc (direction cfg)); lia.
  - intros a b c Ha Hb Hc.
    destruct (Hnum a Ha) as [m ->], (Hnum b Hb) as [n ->],
      (Hnum c Hc) as [p ->]. simpl.
    destruct (isAsc (direction cfg)); lia.
Qed.

(** On a string column it is as consistent as the collation. *)
Lemma string_column_consistent tab cfg items :
  (forall s t, localeCompare s t < 0 <-> 0 < localeCompare t s) ->
  (forall s t u, localeCompare s t <= 0 -> localeCompare t u <= 0 ->
                 localeCompare s u <= 0) ->
  (forall a, In a items -> exists s, sortValue tab (key cfg) a = VString s) ->
  consistentOn (compareItems localeCompare tab cfg) items.
Proof.
  intros Hopp Htrans Hstr. unfold compareItems. split.
  - intros a b Ha Hb.
    destruct (Hstr a Ha) as [s ->], (Hstr b Hb) as [t ->]. simpl.
    pose proof (Hopp (toLowerCase s) (toLowerCase t)).
    pose proof (Hopp (toLowerCase t) (toLowerCase s)).
    destruct (isAsc (direction cfg)); lia.
  - intros a b c Ha Hb Hc.
    destruct (Hstr a Ha) as [s ->], (Hstr b Hb) as [t ->],
      (Hstr c Hc) as [u ->]. simpl.
    destruct (isAsc (direction cfg)).
    + apply Htrans.
    + intros Hba Hcb.
      pose proof (Hopp (toLowerCase s) (toLowerCase t)).
      pose proof (Hopp (toLowerCase t) (toLowerCase s)).
      pose proof (Hopp (toLowerCase t) (toLowerCase u)).
      pose proof (Hopp (toLowerCase u) (toLowerCase t)).
      pose proof (Hopp (toLowerCase s) (toLowerCase u)).
      pose proof (Hopp (toLowerCase u) (toLowerCase s)).
      pose proof (Htrans (toLowerCase u) (toLowerCase t) (toLowerCase s)).
      lia.
Qed.

(** C6. The function handed to [sort] compares the two rows' sort values
    by type and applies the direction: two strings by locale comparison
    of their lower-cased forms, two numbers by their difference, two
    booleans with [false] before [true].  Under the container name key
    the sort value is the first name without its leading ["/"], under the
    [repoTags] key the first tag, and a field that is [null] or
    [undefined] is replaced by the empty string before the comparison.
    The sort is stable: for a comparator consistent on the rows, the
    result is a rearrangement of the rows in comparator order in which
    rows that compare equal keep their relative order. *)
Theorem sort_is_type_aware_and_stable
    (st : State) (cfg : SortConfig) (items : list Item) :
  sortConfig st = Some cfg ->
  let tab := activeTab st in
  let value := sortValue tab (key cfg) in
  let cmp := compareItems localeCompare tab cfg in
  let signed c := if isAsc (direction cfg) then c else - c in
  (forall a b s t, value a = VString s -> value b = VString t ->
     cmp a b = signed (localeCompare (toLowerCase s) (toLowerCase t))) /\
  (forall a b m n, value a = VNumber m -> value b = VNumber n ->
     cmp a b = signed (m - n)) /\
  (forall a b x y, value a = VBoolean x -> value b = VBoolean y ->
     cmp a b = signed (match x, y with
                       | false, true => -1
                       | true, false => 1
                       | _, _ => 0
                       end)) /\
  (forall c rest others,
     tab = containersTab -> key cfg = "name" \/ key cfg = "names" ->
     Container.names c = ("/" ++ rest)%string :: others ->
     value (ContainerItem c) = VString rest) /\
  (forall i tag others,
     key cfg = "repoTags" -> Image.repoTags i = tag :: others ->
     value (ImageItem i) = VString tag) /\
  (forall a,
     key cfg <> "name" -> key cfg <> "names" -> key cfg <> "repoTags" ->
     getProp a (key cfg) = VUndefined \/ getProp a (key cfg) = VNull ->
     value a = VString "") /\
  (consistentOn cmp items ->
     Permutation items (sortItems localeCompare st items) /\
     Sorted (fun a b => cmp a b <= 0) (sortItems localeCompare st items) /\
     forall a, In a items ->
       filter (fun b => cmp a b =? 0) (sortItems localeCompare st items) =
       filter (fun b => cmp a b =? 0) items).
Proof.
  intros Hcfg tab value cmp signed.
  split; [|split; [|split; [|split; [|split; [|split]]]]].
  - intros a b s t Ha Hb. unfold cmp, compareItems.
    fold tab value. now rewrite Ha, Hb.
  - intros a b m n Ha Hb. unfold cmp, compareItems.
    fold tab value. now rewrite Ha, Hb.
  - intros a b x y Ha Hb. unfold cmp, compareItems.
    fold tab value. rewrite Ha, Hb. now destruct x, y.
  - intros c rest others Htab Hkey Hnames. unfold value, sortValue.
    rewrite Htab.
    replace (String.eqb (key cfg) "name" || String.eqb (key cfg) "names")
      with true by (destruct Hkey as [-> | ->]; reflexivity).
    unfold primaryName. cbn [getProp String.eqb Ascii.eqb Bool.eqb].
    simpl String.eqb. rewrite Hnames. cbn [nth_error option_map orEmpty].
    rewrite replace_leading_slash. now destruct rest.
  - intros i tag others Hkey Htags. unfold value, sortValue.
    rewrite Hkey. simpl. unfold primaryTag. simpl getProp.
    rewrite Htags. simpl. now destruct tag.
  - intros a H1 H2 H3 Habsent. unfold value.
    rewrite sortValue_plain by assumption.
    now destruct Habsent as [-> | ->].
  - intros Hcons. unfold sortItems. rewrite Hcfg. fold tab cmp.
    split; [apply arraySort_perm|]. split.
    + apply arraySort_sorted_within with (universe := items);
        [assumption|apply incl_refl].
    + intros a Ha.
      apply arraySort_stable_within with (universe := items);
        [assumption..|apply incl_refl].
Qed.

End TableFacts.

Section SelectionFacts.
Import Js Client.

Variable localeCompare : string -> string -> Z.

(** C2 (amended). Select-all is scoped to the rows on display and decided
    by size alone.  When the number of selected identifiers equals the
    number of rows on display the whole selection is cleared, identifiers
    of rows not on display included; otherwise the selection becomes
    exactly the identifiers of the rows on display, so selected
    identifiers of rows not on display are dropped. *)
Theorem select_all_decided_by_size (st : State) :
  let visible :=
    map (itemKey (activeTab st)) (getSortedAndFilteredItems localeCompare st) in
  (setSize (selectedItems st) = List.length visible ->
   selectedItems (handleSelectAll localeCompare st) = []) /\
  (setSize (selectedItems st) <> List.length visible ->
   forall id,
     In id (selectedItems (handleSelectAll localeCompare st)) <->
     In id visible).
Proof.
  intros visible. unfold handleSelectAll. fold visible.
  destruct (Nat.eqb_spec (setSize (selectedItems st)) (List.length visible))
    as [Heq|Hne]; split; intros Hsize; try contradiction.
  - reflexivity.
  - intros id. simpl. apply setOf_spec.
Qed.

(** *** What changes the selection *)

Lemma commitJson_selected {A} (res : FetchResponse A) set st :
  (forall body s, selectedItems (set body s) = selectedItems s) ->
  selectedItems (fst (commitJson res set st)) = selectedItems st.
Proof.
  intros Hset. unfold commitJson. destruct (json res); simpl; auto.
Qed.

Lemma andThen_selected (b1 b2 : Block) st :
  (forall s, selectedItems (fst (b1 s)) = selectedItems s) ->
  (forall s, selectedItems (fst (b2 s)) = selectedItems s) ->
  selectedItems (fst ((b1 ;; b2) st)) = selectedItems st.
Proof.
  intros H1 H2. unfold andThen. specialize (H1 st).
  destruct (b1 st) as [st' [err|]]; simpl in *; [assumption|].
  now rewrite H2.
Qed.

Lemma guarded_selected body st :
  selectedItems (guarded body st) = selectedItems (fst (body st)).
Proof. unfold guarded. now destruct (body st) as [st' [err|]]. Qed.

Lemma fetchDataBody_selected outcome st :
  selectedItems (fst (fetchDataBody outcome st)) = selectedItems st.
Proof.
  unfold fetchDataBody. destruct outcome as [rs|t]; [|reflexivity].
  match goal with
  | |- context [if ?c then _ else _] => destruct c; [reflexivity|]
  end.
  repeat (apply andThen_selected; intros;
          [now apply commitJson_selected|]).
  now apply commitJson_selected.
Qed.

(** A refresh does not touch the selection. *)
Lemma fetchData_selected outcome st :
  selectedItems (fetchData outcome st) = selectedItems st.
Proof.
  unfold fetchData. now rewrite guarded_selected, fetchDataBody_selected.
Qed.

(** A delete that was not confirmed, got no response, a response that is
    not ok or one whose body does not decode leaves the selection. *)
Lemma handleDelete_selected confirmed response refresh st :
  selectedItems (handleDelete confirmed response refresh st) <>
    selectedItems st ->
  confirmed = true /\
  exists res results,
    response = Fulfilled res /\ ok res = true /\
    json res = Fulfilled results.
Proof.
  unfold handleDelete.
  destruct (Nat.eqb (setSize (selectedItems st)) 0); [congruence|].
  destruct confirmed; [|simpl; congruence].
  cbn [negb]. rewrite guarded_selected. unfold handleDeleteBody.
  destruct response as [res|t]; [|simpl; congruence].
  destruct (ok res) eqn:Hok; [|simpl; congruence].
  destruct (json res) as [results|t] eqn:Hjson; [|simpl; congruence].
  intros _. split; [reflexivity|]. now exists res, results.
Qed.

(** C10 (amended). Changing the search text leaves the selection as it
    is: identifiers selected before the change stay selected while the
    filter hides their rows, and a delete sends them without their being
    selected again.  Of all events of the page, only a tab switch, a
    delete that came back with per-item outcomes, and the two selection
    controls (select-all and a row's checkbox) change the selection. *)
Theorem search_text_keeps_selection (text : string) (st : State) :
  selectedItems (handle localeCompare (SearchInput text) st) =
    selectedItems st /\
  deleteRequest (handle localeCompare (SearchInput text) st) =
    deleteRequest st /\
  forall ev,
    selectedItems (handle localeCompare ev st) <> selectedItems st ->
    match ev with
    | TabClick _ | SelectAllClick | RowCheckboxClick _ => True
    | DeleteClick confirmed response _ =>
        confirmed = true /\
        exists res results,
          response = Fulfilled res /\ ok res = true /\
          json res = Fulfilled results
    | HeaderClick _ | SearchInput _ | RefreshClick _ => False
    end.
Proof.
  split; [reflexivity|]. split; [reflexivity|].
  intros [tab|k|text'| |id|confirmed response refresh|outcome] Hchanged;
    simpl in *; try exact I; try (now apply Hchanged).
  - eapply handleDelete_selected; eassumption.
  - apply Hchanged, fetchData_selected.
Qed.

End SelectionFacts.

(* ===================================================================== *)
(** ** Scenarios *)
(* ===================================================================== *)

(** Searching the images for a tag shows the tagged image only. *)
Lemma search_scenario_shows_tagged_image :
  map (Client.itemKey Client.imagesTab)
    (Client.getSortedAndFilteredItems Client.codeUnitCompare
       Client.imagesSearched) = ["sha256:aaa"].
Proof.
  rewrite (proj1 (displayed_rows_are_sorted_filter Client.codeUnitCompare
                    Client.imagesSearched)).
  reflexivity.
Defined.

(** C2, as stated, fails: with both containers selected and the search
    narrowing the display to [c1], select-all leaves [c1] selected and
    drops [c2], where the claim has it deselect [c1] and keep [c2]. *)
Lemma select_all_on_narrowed_display :
  let st := Client.setSearchTerm "alpha" Client.twoSelected in
  let visible :=
    map (Client.itemKey (Client.activeTab st))
      (Client.getSortedAndFilteredItems Client.codeUnitCompare st) in
  let after :=
    Client.selectedItems (Client.handleSelectAll Client.codeUnitCompare st) in
  visible = ["c1"] /\
  incl visible (Client.selectedItems st) /\
  after = ["c1"] /\
  ~ (forall id,
       In id after <->
       In id (Client.selectedItems st) /\ ~ In id visible).
Proof.
  cbv zeta. split; [reflexivity|]. split.
  - intros id [<-|[]]. now left.
  - split; [reflexivity|].
    intros Hclaim. destruct (Hclaim "c1") as [Hkept _].
    apply Hkept; now left.
Qed.

(** Select-all on the narrowed display of [twoSelected] keeps what is on
    display and nothing else. *)
Lemma select_all_scenario :
  In "c1"
    (Client.selectedItems
       (Client.handleSelectAll Client.codeUnitCompare
          (Client.setSearchTerm "alpha" Client.twoSelected))) /\
  ~ In "c2"
    (Client.selectedItems
       (Client.handleSelectAll Client.codeUnitCompare
          (Client.setSearchTerm "alpha" Client.twoSelected))).
Proof.
  assert (Hsize :
    Js.setSize
      (Client.selectedItems (Client.setSearchTerm "alpha" Client.twoSelected))
    <> List.length
         (map (Client.itemKey Client.containersTab)
            (Client.getSortedAndFilteredItems Client.codeUnitCompare
               (Client.setSearchTerm "alpha" Client.twoSelected))))
    by (vm_compute; discriminate).
  pose proof (proj2 (select_all_decided_by_size Client.codeUnitCompare
                       (Client.setSearchTerm "alpha" Client.twoSelected))
                Hsize) as Hvisible.
  split.
  - apply Hvisible. now left.
  - intros Hin. apply Hvisible in Hin. destruct Hin as [Heq|[]].
    discriminate Heq.
Defined.

(** C10, as stated, fails: after the search text has hidden [c2], one
    click on select-all drops [c2] from the selection and a second click
    clears the selection, with no tab switch and no delete. *)
Lemma selection_changed_by_select_all :
  let st :=
    Client.handle Client.codeUnitCompare (Client.SearchInput "alpha")
      Client.twoSelected in
  let once := Client.handle Client.codeUnitCompare Client.SelectAllClick st in
  let twice :=
    Client.handle Client.codeUnitCompare Client.SelectAllClick once in
  Client.selectedItems st = ["c1"; "c2"] /\
  Client.selectedItems once = ["c1"] /\
  Client.selectedItems twice = [] /\
  ~ (forall ev s,
       Client.selectedItems s <> [] ->
       Client.selectedItems (Client.handle Client.codeUnitCompare ev s) = [] ->
       match ev with
       | Client.TabClick _ | Client.DeleteClick _ _ _ => True
       | _ => False
       end).
Proof.
  cbv zeta. repeat split.
  intros Honly.
  apply (Honly Client.SelectAllClick
           (Client.handle Client.codeUnitCompare Client.SelectAllClick
              (Client.handle Client.codeUnitCompare
                 (Client.SearchInput "alpha") Client.twoSelected))).
  - discriminate.
  - reflexivity.
Qed.

(** The delete of the scenario changes the selection, and it is a delete
    that was confirmed and came back with per-item outcomes. *)
Lemma scenario_delete_is_completed :
  true = true /\
  exists res results,
    Js.Fulfilled (Client.okResponse [ {| Client.success := true |};
                                      {| Client.success := false |} ]) =
      Js.Fulfilled res /\
    Client.ok res = true /\ Client.json res = Js.Fulfilled results.
Proof.
  apply (proj2 (proj2 (search_text_keeps_selection Client.codeUnitCompare
                         "" Client.twoSelected))
           (Client.DeleteClick true
              (Js.Fulfilled
                 (Client.okResponse [ {| Client.success := true |};
                                      {| Client.success := false |} ]))
              Client.refreshAfterDelete)).
  vm_compute. discriminate.
Defined.

(** Sorting the three containers by size puts the smaller one first and
    keeps [c1] before [c3], which has the same size. *)
Lemma sort_by_size_scenario :
  map (Client.itemKey Client.containersTab)
    (Client.sortItems Client.codeUnitCompare Client.threeBySize
       (Client.tabItems Client.threeBySize)) = ["c2"; "c1"; "c3"].
Proof. reflexivity. Qed.

Lemma sort_by_size_consistent :
  Js.consistentOn
    (Client.compareItems Client.codeUnitCompare Client.containersTab
       {| Client.key := "size"; Client.direction := Client.asc |})
    (Client.tabItems Client.threeBySize).
Proof.
  apply numeric_column_consistent.
  intros a [<-|[<-|[<-|[]]]]; eexists; reflexivity.
Qed.

(** The rows of the size of [c1] are in the same order after the sort as
    before it. *)
Lemma sort_by_size_is_stable :
  filter
    (fun b =>
       Client.compareItems Client.codeUnitCompare Client.containersTab
         {| Client.key := "size"; Client.direction := Client.asc |}
         (Client.ContainerItem (Client.container "c1" "/alpha" 100)) b =? 0)
    (Client.sortItems Client.codeUnitCompare Client.threeBySize
       (Client.tabItems Client.threeBySize)) =
  filter
    (fun b =>
       Client.compareItems Client.codeUnitCompare Client.containersTab
         {| Client.key := "size"; Client.direction := Client.asc |}
         (Client.ContainerItem (Client.container "c1" "/alpha" 100)) b =? 0)
    (Client.tabItems Client.threeBySize).
Proof.
  destruct (proj2 (proj2 (proj2 (proj2 (proj2 (proj2
              (sort_is_type_aware_and_stable Client.codeUnitCompare
                 Client.threeBySize (Client.tabItems Client.threeBySize)
                 eq_refl))))))
              sort_by_size_consistent) as (_ & _ & Hstable).
  apply Hstable. now left.
Defined.

(** The two images sorted by size: ascending puts 50 before 100,
    descending leaves 100 before 50. *)
Lemma image_sizes_scenario :
  map (Client.itemKey Client.imagesTab)
    (Client.getSortedAndFilteredItems Client.codeUnitCompare
       (Client.handleSort "size"
          (Client.setSearchTerm "" Client.imagesSearched))) =
    ["sha256:bbb"; "sha256:aaa"] /\
  map (Client.itemKey Client.imagesTab)
    (Client.getSortedAndFilteredItems Client.codeUnitCompare
       (Client.handleSort "size"
          (Client.handleSort "size"
             (Client.setSearchTerm "" Client.imagesSearched)))) =
    ["sha256:aaa"; "sha256:bbb"].
Proof. split; reflexivity. Qed.

(* ===================================================================== *)
(** ** Further properties of the gateway *)
(* ===================================================================== *)

Section BulkDeleteFacts.
Import Js Gateway.

Context {E : Type} {D : Docker E}.

(** X1. One bulk delete of [ids1 ++ ids2] does to the engine, and reports,
    what a bulk delete of [ids1] followed by one of [ids2] does: nothing
    is rolled back and no outcome of the first part changes how the second
    part is handled. *)
Theorem bulk_delete_of_concatenation
    (k : Kind) (ids1 ids2 : list string) (e : E) :
  exists e1 r1 e2 r2,
    handleDeleteRequest k (Some ids1) e = (e1, DeleteResults r1) /\
    handleDeleteRequest k (Some ids2) e1 = (e2, DeleteResults r2) /\
    handleDeleteRequest k (Some (ids1 ++ ids2)) e =
      (e2, DeleteResults (r1 ++ r2)).
Proof.
  rewrite !handleDeleteRequest_loop, removeAll_app.
  do 4 eexists. split; [reflexivity|].
  rewrite handleDeleteRequest_loop. split; reflexivity.
Qed.

(** X2. The volume listing fails as a whole, with status 500, exactly when
    the listing call rejects, the usage report cannot be fetched, or the
    listing carries no array; every other request is answered with the
    records.  The usage report is not asked for when the listing call has
    rejected. *)
Theorem volume_listing_failure_cases (e : E) :
  (snd (getVolumes e) = Failure 500 "Failed to fetch volumes" <->
   (exists t, snd (listVolumes e) = Rejected t) \/
   (exists listing,
      snd (listVolumes e) = Fulfilled listing /\
      ((exists t, snd (df (fst (listVolumes e))) = Rejected t) \/
       listedVolumes listing = None))) /\
  (snd (getVolumes e) <> Failure 500 "Failed to fetch volumes" ->
   exists details, snd (getVolumes e) = VolumeDetails details) /\
  ((exists t, snd (listVolumes e) = Rejected t) ->
   fst (getVolumes e) = fst (listVolumes e)).
Proof.
  unfold getVolumes.
  destruct (listVolumes e) as [e1 [listing|t]]; simpl.
  - destruct (df e1) as [e2 [report|t]]; simpl.
    + destruct (listedVolumes listing) as [vols|] eqn:Hvols; simpl.
      * split; [split|split].
        -- discriminate.
        -- intros [[t Ht]|(l & Hl & [[t Ht]|Hnone])]; try discriminate.
           injection Hl as <-. congruence.
        -- intros _. eauto.
        -- intros [t Ht]. discriminate.
      * split; [split|split].
        -- intros _. right. exists listing. auto.
        -- reflexivity.
        -- intros Hne. now contradiction Hne.
        -- intros [t Ht]. discriminate.
    + split; [split|split].
      * intros _. right. exists listing. split; [reflexivity|]. left. eauto.
      * reflexivity.
      * intros Hne. now contradiction Hne.
      * intros [t' Ht]. discriminate.
  - split; [split|split].
    + intros _. left. eauto.
    + reflexivity.
    + intros Hne. now contradiction Hne.
    + reflexivity.
Qed.

(** X3. When the usage report names a volume more than once, the listing
    reports the figure of the last entry of that name. *)
Theorem volume_size_last_entry_wins
    (e e1 e2 : E) (listing : VolumeListing) (report : DfReport)
    (vols pre post : list EngineVolume) (entry : EngineVolume) :
  listVolumes e = (e1, Fulfilled listing) ->
  df e1 = (e2, Fulfilled report) ->
  listedVolumes listing = Some vols ->
  dfVolumes report = Some (pre ++ entry :: post) ->
  (forall later, In later post -> Name later <> Name entry) ->
  exists details,
    getVolumes e = (e2, VolumeDetails details) /\
    List.length details = List.length vols /\
    forall detail, In detail details -> name detail = Name entry ->
      size detail = match UsageData entry with
                    | Some usage => Size usage
                    | None => 0
                    end.
Proof.
  intros Hlist Hdf Hvols Hreport Hlast. unfold getVolumes.
  rewrite Hlist, Hdf, Hvols, Hreport.
  eexists; split; [reflexivity|]. split; [apply length_map|].
  intros detail Hin Hname. apply in_map_iff in Hin.
  destruct Hin as (volume & <- & _). simpl in *.
  rewrite Hname, collectSizes_last by assumption.
  destruct (UsageData entry) as [usage|]; cbn [option_map];
    [now rewrite !orZero_some | reflexivity].
Qed.

End BulkDeleteFacts.

Section InventoryFacts.
Import Js Inventory.

Lemma fold_left_sum {A} (f : A -> Z) l : forall acc,
  fold_left (fun acc x => acc + f x) l acc =
  acc + fold_right Z.add 0 (map f l).
Proof.
  induction l as [|x l IH]; intros acc; simpl; [lia|].
  rewrite IH. lia.
Qed.

Lemma sum_permutation l l' :
  Permutation l l' -> fold_right Z.add 0 l = fold_right Z.add 0 l'.
Proof. induction 1; simpl; lia. Qed.

Lemma sectionSize_present {A} (figure : A -> option Z) l :
  sectionSize figure (Some l) =
  fold_right Z.add 0 (map (fun x => orZero (figure x)) l).
Proof.
  unfold sectionSize. cbn [option_map]. rewrite orZero_some.
  exact (fold_left_sum (fun x => orZero (figure x)) l 0).
Qed.

Lemma sectionCount_present {A} (l : list A) :
  sectionCount (Some l) = Z.of_nat (List.length l).
Proof. unfold sectionCount. cbn [option_map]. apply orZero_some. Qed.

(** X4. The usage summary gives, for each of the three sections of the
    report, the number of entries and the sum of their sizes, an entry
    without a size counting for 0; a section missing from the report
    gives 0 and 0. *)
Theorem usage_summary_counts_and_sums (usage : DiskUsage) :
  exists info,
    getSystem (Fulfilled usage) = Ok info /\
    Client.count (Client.infoImages info) =
      match Images usage with
      | Some l => Z.of_nat (List.length l)
      | None => 0
      end /\
    Client.totalSize (Client.infoImages info) =
      match Images usage with
      | Some l => fold_right Z.add 0 (map (fun x => orZero (imageSize x)) l)
      | None => 0
      end /\
    Client.count (Client.infoContainers info) =
      match Containers usage with
      | Some l => Z.of_nat (List.length l)
      | None => 0
      end /\
    Client.totalSize (Client.infoContainers info) =
      match Containers usage with
      | Some l =>
          fold_right Z.add 0 (map (fun x => orZero (containerSizeRw x)) l)
      | None => 0
      end /\
    Client.count (Client.infoVolumes info) =
      match Volumes usage with
      | Some l => Z.of_nat (List.length l)
      | None => 0
      end /\
    Client.totalSize (Client.infoVolumes info) =
      match Volumes usage with
      | Some l =>
          fold_right Z.add 0
            (map (fun vol =>
                    match Gateway.UsageData vol with
                    | Some u => Gateway.Size u
                    | None => 0
                    end) l)
      | None => 0
      end.
Proof.
  eexists; split; [reflexivity|]. simpl.
  destruct (Images usage), (Containers usage), (Volumes usage);
    rewrite ?sectionSize_present, ?sectionCount_present;
    repeat split; try reflexivity;
    f_equal; apply map_ext; intros vol; unfold volumeFigure;
    destruct (Gateway.UsageData vol); cbn [option_map];
    rewrite ?orZero_some; reflexivity.
Qed.

Lemma volume_sizes_sum
    (sizes : JsMap Z) (vols entries : list Gateway.EngineVolume) :
  NoDup (map Gateway.Name entries) ->
  Permutation (map Gateway.Name vols) (map Gateway.Name entries) ->
  sizes = Gateway.collectSizes entries ->
  fold_right Z.add 0
    (map Gateway.size (map (Gateway.volumeDetail sizes) vols)) =
  fold_right Z.add 0 (map (fun x => orZero (volumeFigure x)) entries).
Proof.
  intros Hnd Hperm ->.
  rewrite map_map. cbn [Gateway.size Gateway.volumeDetail].
  rewrite <- (map_map Gateway.Name
                (fun n => orZero (mapGet n (Gateway.collectSizes entries)))).
  rewrite (sum_permutation
             (Permutation_map
                (fun n => orZero (mapGet n (Gateway.collectSizes entries)))
                Hperm)).
  rewrite map_map. f_equal. apply map_ext_in. intros entry Hin.
  rewrite collectSizes_unique by assumption.
  rewrite orZero_some. reflexivity.
Qed.

(** X5. When the listing and the usage report describe the same volumes, each
    once, the volumes total of the usage summary is the sum of the sizes
    the volume listing reports, and its count the number of records. *)
Theorem volumes_total_is_sum_of_listed_sizes
    {E : Type} {D : Gateway.Docker E} (e e1 e2 : E)
    (listing : Gateway.VolumeListing) (report : Gateway.DfReport)
    (usage : DiskUsage) (vols entries : list Gateway.EngineVolume) :
  Gateway.listVolumes e = (e1, Fulfilled listing) ->
  Gateway.df e1 = (e2, Fulfilled report) ->
  Gateway.listedVolumes listing = Some vols ->
  Gateway.dfVolumes report = Some entries ->
  Volumes usage = Some entries ->
  NoDup (map Gateway.Name entries) ->
  Permutation (map Gateway.Name vols) (map Gateway.Name entries) ->
  exists details info,
    Gateway.getVolumes e = (e2, Gateway.VolumeDetails details) /\
    getSystem (Fulfilled usage) = Ok info /\
    fold_right Z.add 0 (map Gateway.size details) =
      Client.totalSize (Client.infoVolumes info) /\
    Z.of_nat (List.length details) = Client.count (Client.infoVolumes info).
Proof.
  intros Hlist Hdf Hvols Hreport Husage Hnd Hperm.
  unfold Gateway.getVolumes. rewrite Hlist, Hdf, Hvols, Hreport.
  do 2 eexists. split; [reflexivity|]. split; [reflexivity|].
  cbn [Client.totalSize Client.count Client.infoVolumes].
  rewrite Husage, sectionSize_present, sectionCount_present. split.
  - now apply volume_sizes_sum.
  - rewrite length_map.
    rewrite <- (length_map Gateway.Name vols),
            <- (length_map Gateway.Name entries).
    now rewrite (Permutation_length Hperm).
Qed.

(** *** The engine handle *)

Lemma afterRequests_set envs path :
  afterRequests envs (Some path) = Some path.
Proof. induction envs as [|env envs IH]; simpl; auto. Qed.

(** X6. The engine handle is created by the first request and never replaced:
    after any sequence of requests it is the handle for the socket path
    of the first request's environment, whatever the later requests
    carry.  That path is the configured one, or the default when the
    variable is unset or empty, and is never empty. *)
Theorem engine_handle_created_once
    (env : option string) (envs : list (option string)) :
  afterRequests (env :: envs) None = Some (socketPath env) /\
  socketPath env <> "" /\
  (forall path, env = Some path -> path <> "" -> socketPath env = path) /\
  (env = None \/ env = Some "" -> socketPath env = "/var/run/docker.sock").
Proof.
  split; [apply afterRequests_set|]. split; [|split].
  - destruct env as [path|]; simpl; [|discriminate].
    destruct (String.eqb_spec path ""); [discriminate|assumption].
  - intros path -> Hne. simpl.
    destruct (String.eqb_spec path ""); [contradiction|reflexivity].
  - intros [-> | ->]; reflexivity.
Qed.

(** *** An image without tags, from the engine to the table *)

(** X7. An image the engine reports without tags reaches the client with an
    empty tag list: the table shows the placeholder, sorting by tag uses
    the empty string for it, and a search finds it by its id only. *)
Theorem untagged_image_row (image : ImageInfo.t) (term : string) :
  ImageInfo.RepoTags image = None \/ ImageInfo.RepoTags image = Some [] ->
  let row := imageDetail image in
  View.tagCells row = ["<none>"] /\
  (forall tab, Client.sortValue tab "repoTags" (Client.ImageItem row) =
               Client.VString "") /\
  Client.matchesSearch Client.imagesTab term (Client.ImageItem row) =
    includes (toLowerCase (ImageInfo.Id image)) (toLowerCase term).
Proof.
  intros Htags row. subst row.
  split; [|split].
  - unfold View.tagCells, imageDetail. simpl.
    now destruct Htags as [-> | ->].
  - intros tab. unfold Client.sortValue, Client.primaryTag, imageDetail.
    simpl. now destruct Htags as [-> | ->].
  - unfold Client.matchesSearch, Client.hit, imageDetail. simpl.
    now destruct Htags as [-> | ->].
Qed.

End InventoryFacts.

(* ===================================================================== *)
(** ** Further properties of the client *)
(* ===================================================================== *)

Section SetInvariants.
Import Js.

Lemma setHas_iff x s s' :
  (In x s <-> In x s') -> setHas x s = setHas x s'.
Proof.
  intros Hiff. destruct (setHas x s) eqn:H1, (setHas x s') eqn:H2;
    try reflexivity.
  - apply setHas_spec, Hiff, setHas_spec in H1. congruence.
  - apply setHas_spec, Hiff, setHas_spec in H2. congruence.
Qed.

Lemma setHas_false x s : setHas x s = false <-> ~ In x s.
Proof.
  rewrite <- setHas_spec. destruct (setHas x s); split; congruence.
Qed.

Lemma setAdd_NoDup x s : NoDup s -> NoDup (setAdd x s).
Proof.
  intros Hnd. unfold setAdd. destruct (setHas x s) eqn:Hx; [assumption|].
  apply setHas_false in Hx.
  apply NoDup_app; [assumption|repeat constructor; intros []|].
  intros y Hy [<-|[]]. contradiction.
Qed.

Lemma setDelete_NoDup x s : NoDup s -> NoDup (setDelete x s).
Proof. apply NoDup_filter. Qed.

Lemma setOf_fold_NoDup l : forall s,
  NoDup s -> NoDup (fold_left (fun s x => setAdd x s) l s).
Proof.
  induction l as [|x l IH]; intros s Hs; simpl; [assumption|].
  apply IH, setAdd_NoDup, Hs.
Qed.

Lemma setOf_NoDup l : NoDup (setOf l).
Proof. apply setOf_fold_NoDup. constructor. Qed.

Lemma setOf_fold_distinct l : forall s,
  NoDup (s ++ l) -> fold_left (fun s x => setAdd x s) l s = s ++ l.
Proof.
  induction l as [|x l IH]; intros s Hnd; simpl.
  - now rewrite app_nil_r.
  - assert (Hx : setHas x s = false).
    { apply setHas_false. intros Hin.
      apply NoDup_remove_2 in Hnd. apply Hnd, in_or_app. now left. }
    unfold setAdd at 2. rewrite Hx.
    rewrite IH; rewrite <- app_assoc; simpl; [reflexivity|assumption].
Qed.

(** [new Set(array)] of an array without repetitions lists the array. *)
Lemma setOf_distinct l : NoDup l -> setOf l = l.
Proof. intros Hnd. unfold setOf. now rewrite setOf_fold_distinct. Qed.

Lemma setDelete_absent x s : ~ In x s -> setDelete x s = s.
Proof.
  intros Hx. unfold setDelete. apply filter_all.
  intros y Hy. apply negb_true_iff.
  destruct (String.eqb_spec y x); [subst; contradiction|reflexivity].
Qed.

Lemma setDelete_length x s :
  NoDup s -> In x s -> S (setSize (setDelete x s)) = setSize s.
Proof.
  unfold setSize. induction s as [|y s IH]; intros Hnd Hin; [contradiction|].
  inversion Hnd as [|? ? Hy Hs]; subst. simpl.
  destruct (String.eqb_spec y x) as [->|Hne]; simpl.
  - fold (setDelete x s). now rewrite setDelete_absent.
  - f_equal. apply IH; [assumption|]. destruct Hin; [contradiction|assumption].
Qed.

End SetInvariants.

Section RowSelectionFacts.
Import Js Client View.

(** X11. Clicking a row's checkbox toggles that row's identifier and no other:
    the row is checked afterwards exactly when it was not before, every
    other row keeps its mark, the number of selected rows moves by one,
    and a second click on the same row restores every row's mark. *)
Theorem row_checkbox_toggles_one_identifier (id : string) (st : State) :
  NoDup (selectedItems st) ->
  rowChecked id (handleSelectItem id st) = negb (rowChecked id st) /\
  (forall other, other <> id ->
     rowChecked other (handleSelectItem id st) = rowChecked other st) /\
  NoDup (selectedItems (handleSelectItem id st)) /\
  (if rowChecked id st
   then S (setSize (selectedItems (handleSelectItem id st))) =
        setSize (selectedItems st)
   else setSize (selectedItems (handleSelectItem id st)) =
        S (setSize (selectedItems st))) /\
  (forall row, rowChecked row (handleSelectItem id (handleSelectItem id st)) =
               rowChecked row st).
Proof.
  intros Hnd.
  assert (Hflip : forall s, rowChecked id (handleSelectItem id s) =
                            negb (rowChecked id s)).
  { intros s. unfold rowChecked, handleSelectItem.
    destruct (setHas id (selectedItems s)) eqn:Hid; simpl.
    - apply setHas_false. rewrite setDelete_spec. tauto.
    - apply setHas_spec, setAdd_spec. now left. }
  assert (Hother : forall s other, other <> id ->
            rowChecked other (handleSelectItem id s) = rowChecked other s).
  { intros s other Hne. unfold rowChecked, handleSelectItem.
    destruct (setHas id (selectedItems s)); simpl; apply setHas_iff.
    - rewrite setDelete_spec. tauto.
    - rewrite setAdd_spec. tauto. }
  split; [apply Hflip|]. split; [apply Hother|]. split; [|split].
  - unfold handleSelectItem.
    destruct (setHas id (selectedItems st)); simpl;
      [now apply setDelete_NoDup | now apply setAdd_NoDup].
  - unfold rowChecked, handleSelectItem.
    destruct (setHas id (selectedItems st)) eqn:Hid; simpl.
    + apply setDelete_length; [assumption|now apply setHas_spec].
    + unfold setAdd. rewrite Hid. unfold setSize.
      rewrite length_app. simpl. lia.
  - intros row. destruct (String.eqb_spec row id) as [->|Hne].
    + rewrite !Hflip. apply negb_involutive.
    + now rewrite !Hother.
Qed.

(** Ticking [c3] on top of the two selected containers. *)
Lemma row_checkbox_scenario :
  rowChecked "c3" (handleSelectItem "c3" twoSelected) = true /\
  setSize (selectedItems (handleSelectItem "c3" twoSelected)) = 3%nat.
Proof.
  assert (Hnd : NoDup (selectedItems twoSelected)).
  { repeat constructor; simpl; intuition discriminate. }
  destruct (row_checkbox_toggles_one_identifier "c3" twoSelected Hnd)
    as (Hflip & _ & _ & Hsize & _).
  split; [exact Hflip | exact Hsize].
Defined.

End RowSelectionFacts.

Section DisplayFacts.
Import Js Client View.

Variable localeCompare : string -> string -> Z.

Lemma getFilteredItems_filter st :
  getFilteredItems st =
  filter (matchesSearch (activeTab st) (searchTerm st)) (tabItems st).
Proof.
  unfold getFilteredItems.
  destruct (String.eqb_spec (searchTerm st) "") as [Hempty|_]; [|reflexivity].
  rewrite Hempty, filter_all; [reflexivity|].
  intros item Hin. now apply matchesSearch_empty.
Qed.

Lemma sortItems_perm st items :
  Permutation (sortItems localeCompare st items) items.
Proof.
  unfold sortItems. destruct (sortConfig st); [|reflexivity].
  symmetry. apply arraySort_perm.
Qed.

Lemma displayed_perm st :
  Permutation (getSortedAndFilteredItems localeCompare st)
    (filter (matchesSearch (activeTab st) (searchTerm st)) (tabItems st)).
Proof.
  unfold getSortedAndFilteredItems. rewrite <- getFilteredItems_filter.
  apply sortItems_perm.
Qed.

Lemma displayed_In st row :
  In row (getSortedAndFilteredItems localeCompare st) <->
  In row (tabItems st) /\
  matchesSearch (activeTab st) (searchTerm st) row = true.
Proof.
  rewrite <- filter_In. split; apply Permutation_in;
    [|symmetry]; apply displayed_perm.
Qed.

(** X15. The rows on display are the rows of the active tab that match the
    search text, each as often as it was fetched: sorting never hides,
    adds or repeats a row. *)
Theorem displayed_rows_are_the_matching_rows (st : State) :
  Permutation (getSortedAndFilteredItems localeCompare st)
    (filter (matchesSearch (activeTab st) (searchTerm st)) (tabItems st)) /\
  (forall row,
     In row (getSortedAndFilteredItems localeCompare st) <->
     In row (tabItems st) /\
     matchesSearch (activeTab st) (searchTerm st) row = true) /\
  (List.length (getSortedAndFilteredItems localeCompare st) <=
   List.length (tabItems st))%nat.
Proof.
  split; [apply displayed_perm|]. split.
  - intros row. apply displayed_In.
  - rewrite (Permutation_length (displayed_perm st)). apply filter_length_le.
Qed.

(** X16. A click on a column header changes the order of the rows on display
    at most: the same rows are shown, and the selection, the search text
    and the fetched data stay as they are. *)
Theorem header_click_keeps_rows (k : string) (st : State) :
  Permutation (getSortedAndFilteredItems localeCompare (handleSort k st))
    (getSortedAndFilteredItems localeCompare st) /\
  selectedItems (handleSort k st) = selectedItems st /\
  searchTerm (handleSort k st) = searchTerm st /\
  activeTab (handleSort k st) = activeTab st /\
  sameData st (handleSort k st).
Proof.
  split; [|repeat split].
  unfold getSortedAndFilteredItems.
  rewrite sortItems_perm. symmetry. rewrite sortItems_perm. reflexivity.
Qed.

(** *** The search text *)


Lemma toLowerCase_empty s : toLowerCase s = "" <-> s = "".
Proof. destruct s; simpl; split; congruence. Qed.

(** The filter reads the search text through its lower-cased form only. *)
Lemma matchesSearch_lower tab t1 t2 item :
  toLowerCase t1 = toLowerCase t2 ->
  matchesSearch tab t1 item = matchesSearch tab t2 item.
Proof. intros Heq. unfold matchesSearch. now rewrite Heq. Qed.

(** X17. The search ignores the case of the text typed: two texts that differ
    in case only show the same rows in the same order. *)
Theorem search_ignores_case_of_text (t1 t2 : string) (st : State) :
  toLowerCase t1 = toLowerCase t2 ->
  getSortedAndFilteredItems localeCompare (setSearchTerm t1 st) =
  getSortedAndFilteredItems localeCompare (setSearchTerm t2 st).
Proof.
  intros Heq. unfold getSortedAndFilteredItems.
  rewrite !getFilteredItems_filter. cbn [searchTerm activeTab setSearchTerm].
  replace (filter (matchesSearch (activeTab st) t1) (tabItems (setSearchTerm t1 st)))
    with (filter (matchesSearch (activeTab st) t2) (tabItems (setSearchTerm t2 st))).
  - reflexivity.
  - apply filter_ext. intros item. symmetry. now apply matchesSearch_lower.
Qed.






End DisplayFacts.

(** [ALPHA] and [alpha] show the same rows. *)
Lemma search_case_scenario :
  Client.getSortedAndFilteredItems Client.codeUnitCompare
    (Client.setSearchTerm "ALPHA" Client.twoSelected) =
  Client.getSortedAndFilteredItems Client.codeUnitCompare
    (Client.setSearchTerm "alpha" Client.twoSelected).
Proof.
  apply (search_ignores_case_of_text Client.codeUnitCompare "ALPHA" "alpha"
           Client.twoSelected).
  reflexivity.
Defined.


Section SelectAllFacts.
Import Js Client View.

Variable localeCompare : string -> string -> Z.

(** X12. With rows on display whose identifiers are distinct, the header
    checkbox is a true toggle: a click on select-all turns it on when it
    was off, leaving exactly the rows on display selected, and off when
    it was on, leaving nothing selected. *)
Theorem select_all_checkbox_toggles (st : State) :
  NoDup (map (itemKey (activeTab st))
           (getSortedAndFilteredItems localeCompare st)) ->
  getSortedAndFilteredItems localeCompare st <> [] ->
  selectAllChecked localeCompare (handleSelectAll localeCompare st) =
    negb (selectAllChecked localeCompare st) /\
  (selectAllChecked localeCompare st = false ->
   selectedItems (handleSelectAll localeCompare st) =
     map (itemKey (activeTab st))
       (getSortedAndFilteredItems localeCompare st)) /\
  (selectAllChecked localeCompare st = true ->
   selectedItems (handleSelectAll localeCompare st) = []).
Proof.
  intros Hnd Hrows.
  assert (Hsame : forall s,
            getSortedAndFilteredItems localeCompare (setSelectedItems s st) =
            getSortedAndFilteredItems localeCompare st) by reflexivity.
  assert (Hpos : (0 <? List.length
                          (getSortedAndFilteredItems localeCompare st))%nat
                 = true).
  { apply Nat.ltb_lt.
    destruct (getSortedAndFilteredItems localeCompare st);
      [contradiction|simpl; lia]. }
  unfold selectAllChecked, handleSelectAll.
  rewrite length_map.
  destruct (Nat.eqb_spec (setSize (selectedItems st))
              (List.length (getSortedAndFilteredItems localeCompare st)))
    as [Heq|Hne]; rewrite Hsame, Hpos; cbn [selectedItems setSelectedItems].
  - split; [|split; [discriminate|reflexivity]].
    apply Nat.ltb_lt in Hpos. simpl.
    destruct (List.length (getSortedAndFilteredItems localeCompare st));
      [lia|reflexivity].
  - rewrite (setOf_distinct Hnd). unfold setSize. rewrite length_map.
    rewrite Nat.eqb_refl. split; [reflexivity|].
    split; [reflexivity|discriminate].
Qed.

(** X13. With no row on display, select-all empties the selection, whatever
    was selected on rows the search hides. *)
Theorem select_all_on_empty_display (st : State) :
  getSortedAndFilteredItems localeCompare st = [] ->
  selectedItems (handleSelectAll localeCompare st) = [] /\
  selectAllChecked localeCompare (handleSelectAll localeCompare st) = false.
Proof.
  intros Hempty.
  assert (Hsame : forall s,
            getSortedAndFilteredItems localeCompare (setSelectedItems s st) =
            []) by (intros s; exact Hempty).
  unfold selectAllChecked, handleSelectAll. rewrite Hempty.
  destruct (Nat.eqb (setSize (selectedItems st)) (List.length (map _ [])));
    rewrite Hsame; split; try reflexivity; apply andb_false_r.
Qed.

(** X14. A tab switch is a hard reset of the interaction state: the new tab is
    active, nothing is selected, the search text is empty and no sort is
    set, so that all rows fetched for the new tab are on display in
    fetched order; the fetched data, the error and the loading flag are
    not touched. *)
Theorem tab_switch_resets_interaction (tab : TabType) (st : State) :
  activeTab (handle localeCompare (TabClick tab) st) = tab /\
  selectedItems (handle localeCompare (TabClick tab) st) = [] /\
  searchTerm (handle localeCompare (TabClick tab) st) = "" /\
  sortConfig (handle localeCompare (TabClick tab) st) = None /\
  getSortedAndFilteredItems localeCompare
    (handle localeCompare (TabClick tab) st) =
    tabItems (setActiveTab tab st) /\
  selectAllChecked localeCompare (handle localeCompare (TabClick tab) st)
    = false /\
  deleteDisabled (handle localeCompare (TabClick tab) st) = true /\
  sameData st (handle localeCompare (TabClick tab) st) /\
  error (handle localeCompare (TabClick tab) st) = error st /\
  loading (handle localeCompare (TabClick tab) st) = loading st.
Proof.
  repeat split.
  unfold selectAllChecked. simpl.
  destruct (getSortedAndFilteredItems localeCompare _); reflexivity.
Qed.

End SelectAllFacts.

Lemma select_all_checkbox_scenario :
  View.selectAllChecked Client.codeUnitCompare
    (Client.handleSelectAll Client.codeUnitCompare
       (Client.setSearchTerm "alpha" Client.twoSelected)) = true.
Proof.
  apply (proj1 (select_all_checkbox_toggles Client.codeUnitCompare
                  (Client.setSearchTerm "alpha" Client.twoSelected)
                  ltac:(repeat constructor; intros [])
                  ltac:(discriminate))).
Defined.

Lemma select_all_empty_display_scenario :
  Client.selectedItems
    (Client.handleSelectAll Client.codeUnitCompare
       (Client.setSearchTerm "nothing like this" Client.twoSelected)) = [].
Proof.
  apply (proj1 (select_all_on_empty_display Client.codeUnitCompare
                  (Client.setSearchTerm "nothing like this" Client.twoSelected)
                  eq_refl)).
Defined.

Section MoreSortFacts.
Import Js.

Variable A : Type.
Variable compare : A -> A -> Z.

(** An array already in comparator order comes back as it is. *)
Lemma arraySort_of_sorted l :
  Sorted (fun a b => compare a b <= 0) l -> arraySort compare l = l.
Proof.
  induction 1 as [|x l Hs IH Hhd]; [reflexivity|].
  cbn [arraySort fold_right]. fold (arraySort compare l). rewrite IH.
  destruct Hhd as [|y l' Hxy]; [reflexivity|].
  simpl. now apply Z.leb_le in Hxy as ->.
Qed.

Lemma Sorted_within (R R' : A -> A -> Prop) l :
  (forall a b, In a l -> In b l -> R a b -> R' a b) ->
  Sorted R l -> Sorted R' l.
Proof.
  intros Himp Hs. induction Hs as [|x l Hs IH Hhd]; constructor.
  - apply IH. intros a b Ha Hb. apply Himp; now right.
  - destruct Hhd as [|y l' Hxy]; constructor.
    apply Himp; [now left|right; now left|assumption].
Qed.

Lemma filter_none (P : A -> bool) l :
  (forall x, In x l -> P x = false) -> filter P l = [].
Proof.
  induction l as [|x l IH]; intros Hnone; simpl; [reflexivity|].
  rewrite (Hnone x (or_introl eq_refl)). apply IH.
  intros y Hy. apply Hnone. now right.
Qed.

End MoreSortFacts.

Section ColumnSortFacts.
Import Js Client View.

Variable localeCompare : string -> string -> Z.

Lemma numeric_column_values st k row :
  In k (numericColumns (activeTab st)) -> In row (tabItems st) ->
  exists n, sortValue (activeTab st) k row = VNumber n.
Proof.
  unfold tabItems. destruct (activeTab st); simpl;
    intros Hk Hrow; apply in_map_iff in Hrow;
    destruct Hrow as (x & <- & _);
    repeat (destruct Hk as [<-|Hk]; [eexists; reflexivity|]);
    contradiction.
Qed.

(** X19. Sorting an array that is already in the order of the comparator
    leaves it as it is; so sorting twice under one sort setting gives
    what sorting once gives, for a comparator consistent on the rows. *)
Theorem sort_leaves_ordered_rows
    (st : State) (cfg : SortConfig) (items : list Item) :
  sortConfig st = Some cfg ->
  (Sorted (fun a b => compareItems localeCompare (activeTab st) cfg a b <= 0)
     items ->
   sortItems localeCompare st items = items) /\
  (consistentOn (compareItems localeCompare (activeTab st) cfg) items ->
   sortItems localeCompare st (sortItems localeCompare st items) =
   sortItems localeCompare st items).
Proof.
  intros Hcfg. unfold sortItems. rewrite Hcfg. split.
  - apply arraySort_of_sorted.
  - intros Hcons. apply arraySort_of_sorted.
    apply arraySort_sorted_within with (universe := items);
      [assumption|apply incl_refl].
Qed.

(** X20. Under a numeric column of the active tab the rows on display are in
    the order of that column's numbers, nondecreasing for an ascending
    sort and nonincreasing for a descending one, whatever the locale's
    collation; rows with the same number stay in fetched order. *)
Theorem numeric_column_sort_is_ordered (st : State) (cfg : SortConfig) :
  sortConfig st = Some cfg ->
  In (key cfg) (numericColumns (activeTab st)) ->
  let rows := getSortedAndFilteredItems localeCompare st in
  let number row :=
    match sortValue (activeTab st) (key cfg) row with
    | VNumber n => n
    | _ => 0
    end in
  Sorted (fun a b => if isAsc (direction cfg)
                     then number a <= number b
                     else number b <= number a) rows /\
  forall n,
    filter (fun row => number row =? n) rows =
    filter (fun row => number row =? n) (getFilteredItems st).
Proof.
  intros Hcfg Hkey rows number.
  set (cmp := compareItems localeCompare (activeTab st) cfg).
  assert (Hnum : forall row, In row (getFilteredItems st) ->
            exists n, sortValue (activeTab st) (key cfg) row = VNumber n).
  { intros row Hin. apply numeric_column_values; [assumption|].
    rewrite getFilteredItems_filter in Hin. now apply filter_In in Hin. }
  assert (Hcons : consistentOn cmp (getFilteredItems st))
    by now apply numeric_column_consistent.
  assert (Hrows : rows = arraySort cmp (getFilteredItems st)).
  { unfold rows, getSortedAndFilteredItems, sortItems. now rewrite Hcfg. }
  assert (Hcmp : forall a b, In a (getFilteredItems st) ->
            In b (getFilteredItems st) ->
            cmp a b = if isAsc (direction cfg)
                      then number a - number b
                      else - (number a - number b)).
  { intros a b Ha Hb. unfold cmp, compareItems, number.
    destruct (Hnum a Ha) as [m ->], (Hnum b Hb) as [n ->]. reflexivity. }
  split.
  - rewrite Hrows.
    apply Sorted_within with (R := fun a b => cmp a b <= 0).
    + intros a b Ha Hb. rewrite arraySort_In in Ha, Hb.
      rewrite (Hcmp a b Ha Hb). destruct (isAsc (direction cfg)); lia.
    + apply arraySort_sorted_within with (universe := getFilteredItems st);
        [assumption|apply incl_refl].
  - intros n. rewrite Hrows.
    destruct (existsb (fun row => number row =? n) (getFilteredItems st))
      eqn:Hex.
    + apply existsb_exists in Hex. destruct Hex as (a & Ha & Hn).
      apply Z.eqb_eq in Hn.
      assert (Hclass : forall b, In b (getFilteredItems st) ->
                (number b =? n) = (cmp a b =? 0)).
      { intros b Hb. rewrite (Hcmp a b Ha Hb), Hn.
        destruct (isAsc (direction cfg)), (Z.eqb_spec (number b) n);
          symmetry; [apply Z.eqb_eq|apply Z.eqb_neq
                    |apply Z.eqb_eq|apply Z.eqb_neq]; lia. }
      rewrite (filter_ext_in _ _ _ Hclass).
      rewrite <- (@arraySort_stable_within _ cmp _ Hcons a _ Ha
                    (incl_refl _)).
      apply filter_ext_in. intros b Hb. apply Hclass.
      now rewrite arraySort_In in Hb.
    + rewrite !filter_none; [reflexivity| |].
      * intros x Hx.
        destruct (number x =? n) eqn:Hxn; [|reflexivity].
        assert (existsb (fun row => number row =? n) (getFilteredItems st)
                = true) by (apply existsb_exists; eauto).
        congruence.
      * intros x Hx. rewrite arraySort_In in Hx.
        destruct (number x =? n) eqn:Hxn; [|reflexivity].
        assert (existsb (fun row => number row =? n) (getFilteredItems st)
                = true) by (apply existsb_exists; eauto).
        congruence.
Qed.

End ColumnSortFacts.

(** The two images sorted by size, descending, are already in order. *)
Lemma sort_descending_scenario :
  Client.sortItems Client.codeUnitCompare
    (Client.setSortConfig
       (Some {| Client.key := "size"; Client.direction := Client.desc |})
       Client.imagesSearched)
    (Client.tabItems Client.imagesSearched) =
  Client.tabItems Client.imagesSearched.
Proof.
  apply (proj1 (sort_leaves_ordered_rows Client.codeUnitCompare
                  (Client.setSortConfig
                     (Some {| Client.key := "size";
                              Client.direction := Client.desc |})
                     Client.imagesSearched)
                  (Client.tabItems Client.imagesSearched) eq_refl)).
  repeat constructor. vm_compute. discriminate.
Defined.

(** The three containers sorted by size come out with sizes 50, 100,
    100. *)
Lemma numeric_sort_scenario :
  Sorted
    (fun a b =>
       match Client.sortValue Client.containersTab "size" a with
       | Client.VNumber n => n
       | _ => 0
       end <=
       match Client.sortValue Client.containersTab "size" b with
       | Client.VNumber n => n
       | _ => 0
       end)
    (Client.getSortedAndFilteredItems Client.codeUnitCompare
       Client.threeBySize).
Proof.
  apply (proj1 (numeric_column_sort_is_ordered Client.codeUnitCompare
                  Client.threeBySize eq_refl
                  (or_intror (or_introl eq_refl)))).
Defined.

Section DeleteFacts.
Import Js Client View.

Variable localeCompare : string -> string -> Z.

Lemma commitJson_frame {A} (res : FetchResponse A) set st :
  (forall body s, activeTab (set body s) = activeTab s /\
                  searchTerm (set body s) = searchTerm s /\
                  sortConfig (set body s) = sortConfig s) ->
  activeTab (fst (commitJson res set st)) = activeTab st /\
  searchTerm (fst (commitJson res set st)) = searchTerm st /\
  sortConfig (fst (commitJson res set st)) = sortConfig st.
Proof.
  intros Hset. unfold commitJson. destruct (json res); simpl; auto.
Qed.

Lemma fetchData_frame outcome st :
  activeTab (fetchData outcome st) = activeTab st /\
  searchTerm (fetchData outcome st) = searchTerm st /\
  sortConfig (fetchData outcome st) = sortConfig st.
Proof.
  unfold fetchData, guarded, fetchDataBody.
  destruct outcome as [rs|t]; [|repeat split].
  match goal with
  | |- context [if ?c then _ else _] => destruct c; [repeat split|]
  end.
  unfold andThen, commitJson.
  destruct (json (containersRes rs)); [|repeat split].
  destruct (json (imagesRes rs)); [|repeat split].
  destruct (json (volumesRes rs)); [|repeat split].
  destruct (json (networksRes rs)); [|repeat split].
  destruct (json (systemRes rs)); repeat split.
Qed.

(** X21. A refresh is not a reset: whatever its outcome it leaves the active
    tab, the selection, the search text and the sort setting as they
    were, and it ends with the loading flag cleared. *)
Theorem refresh_keeps_interaction_state (outcome : FetchOutcome) (st : State) :
  activeTab (fetchData outcome st) = activeTab st /\
  selectedItems (fetchData outcome st) = selectedItems st /\
  searchTerm (fetchData outcome st) = searchTerm st /\
  sortConfig (fetchData outcome st) = sortConfig st /\
  loading (fetchData outcome st) = false.
Proof.
  destruct (fetchData_frame outcome st) as (Htab & Hsearch & Hsort).
  split; [exact Htab|]. split; [apply fetchData_selected|].
  split; [exact Hsearch|]. split; [exact Hsort|].
  unfold fetchData, guarded.
  now destruct (fetchDataBody outcome _) as [st' [err|]].
Qed.

(** X22. When the five responses are ok, their bodies are decoded and
    committed one after the other, in the order containers, images,
    volumes, networks, system: a body that fails to decode stops the
    refresh with its error shown, the pieces before it replaced and the
    pieces from it on left as they were. *)
Theorem refresh_commits_bodies_in_order (rs : Responses) (st : State) :
  ok (containersRes rs) = true -> ok (imagesRes rs) = true ->
  ok (volumesRes rs) = true -> ok (networksRes rs) = true ->
  ok (systemRes rs) = true ->
  containers (fetchData (Fulfilled rs) st) =
    match json (containersRes rs) with
    | Fulfilled cs => cs
    | Rejected _ => containers st
    end /\
  images (fetchData (Fulfilled rs) st) =
    match json (containersRes rs), json (imagesRes rs) with
    | Fulfilled _, Fulfilled ims => ims
    | _, _ => images st
    end /\
  volumes (fetchData (Fulfilled rs) st) =
    match json (containersRes rs), json (imagesRes rs),
          json (volumesRes rs) with
    | Fulfilled _, Fulfilled _, Fulfilled vs => vs
    | _, _, _ => volumes st
    end /\
  networks (fetchData (Fulfilled rs) st) =
    match json (containersRes rs), json (imagesRes rs),
          json (volumesRes rs), json (networksRes rs) with
    | Fulfilled _, Fulfilled _, Fulfilled _, Fulfilled ns => ns
    | _, _, _, _ => networks st
    end /\
  systemInfo (fetchData (Fulfilled rs) st) =
    match json (containersRes rs), json (imagesRes rs),
          json (volumesRes rs), json (networksRes rs),
          json (systemRes rs) with
    | Fulfilled _, Fulfilled _, Fulfilled _, Fulfilled _, Fulfilled info =>
        Some info
    | _, _, _, _, _ => systemInfo st
    end /\
  error (fetchData (Fulfilled rs) st) =
    match json (containersRes rs) with
    | Rejected t => Some (errorText t)
    | Fulfilled _ =>
    match json (imagesRes rs) with
    | Rejected t => Some (errorText t)
    | Fulfilled _ =>
    match json (volumesRes rs) with
    | Rejected t => Some (errorText t)
    | Fulfilled _ =>
    match json (networksRes rs) with
    | Rejected t => Some (errorText t)
    | Fulfilled _ =>
    match json (systemRes rs) with
    | Rejected t => Some (errorText t)
    | Fulfilled _ => None
    end end end end end.
Proof.
  intros Hc Hi Hv Hn Hs.
  unfold fetchData, guarded, fetchDataBody.
  rewrite Hc, Hi, Hv, Hn, Hs. cbn [negb orb].
  unfold andThen, commitJson.
  destruct (json (containersRes rs)); [|repeat split].
  destruct (json (imagesRes rs)); [|repeat split].
  destruct (json (volumesRes rs)); [|repeat split].
  destruct (json (networksRes rs)); [|repeat split].
  destruct (json (systemRes rs)); repeat split.
Qed.

(** The data a refresh leaves depends on the fetches and on the data
    before it only. *)
Lemma fetchData_data outcome st1 st2 :
  sameData st1 st2 -> sameData (fetchData outcome st1) (fetchData outcome st2).
Proof.
  intros (Hc & Hi & Hv & Hn & Hs).
  unfold fetchData, guarded, fetchDataBody.
  destruct outcome as [rs|t]; [|repeat split; assumption].
  match goal with
  | |- context [if ?c then _ else _] =>
      destruct c; [repeat split; assumption|]
  end.
  unfold andThen, commitJson.
  destruct (json (containersRes rs)); [|repeat split; assumption].
  destruct (json (imagesRes rs)); [|repeat split; assumption].
  destruct (json (volumesRes rs)); [|repeat split; assumption].
  destruct (json (networksRes rs)); [|repeat split; assumption].
  destruct (json (systemRes rs)); repeat split; assumption.
Qed.

(** X23. A delete that does not complete changes nothing the user has set up.
    With nothing selected or the confirmation declined the state is left
    untouched.  When the request gets no response, a response that is not
    ok, or a body that does not decode, the selection and the fetched
    data are kept, no refresh takes place, the matching message is shown
    and the loading flag is cleared, so the delete can be tried again. *)
Theorem unfinished_delete_keeps_selection
    (confirmed : bool) (response : Settled (FetchResponse (list Outcome)))
    (refresh : FetchOutcome) (st : State) :
  (selectedItems st = [] \/ confirmed = false ->
   handleDelete confirmed response refresh st = st) /\
  (forall message,
     selectedItems st <> [] -> confirmed = true ->
     match response with
     | Rejected t => message = errorText t
     | Fulfilled res =>
         if ok res
         then match json res with
              | Rejected t => message = errorText t
              | Fulfilled _ => False
              end
         else message = "Failed to delete items"
     end ->
     selectedItems (handleDelete confirmed response refresh st) =
       selectedItems st /\
     sameData st (handleDelete confirmed response refresh st) /\
     error (handleDelete confirmed response refresh st) = Some message /\
     loading (handleDelete confirmed response refresh st) = false).
Proof.
  unfold handleDelete. split.
  - intros [Hnone | ->].
    + now rewrite Hnone.
    + destruct (Nat.eqb _ 0); reflexivity.
  - intros message Hsel -> Hfail.
    destruct (selectedItems st) as [|id sel] eqn:Hs; [contradiction|].
    cbn [setSize List.length Nat.eqb negb].
    unfold guarded, handleDeleteBody.
    destruct response as [res|t].
    + destruct (ok res); cbn [negb].
      * destruct (json res) as [results|t]; [contradiction|].
        subst message. simpl. rewrite Hs. repeat split.
      * subst message. simpl. rewrite Hs. repeat split.
    + subst message. simpl. rewrite Hs. repeat split.
Qed.

(** X24. A delete that comes back with per-item outcomes always empties the
    selection and refreshes: the data afterwards is what the refresh
    leaves, the delete button is disabled again, and the error shown is
    the refresh's own, so no count of failed items outlives the
    refresh. *)
Theorem completed_delete_clears_and_refreshes
    (res : FetchResponse (list Outcome)) (results : list Outcome)
    (refresh : FetchOutcome) (st : State) :
  selectedItems st <> [] ->
  ok res = true -> json res = Fulfilled results ->
  selectedItems (handleDelete true (Fulfilled res) refresh st) = [] /\
  deleteDisabled (handleDelete true (Fulfilled res) refresh st) = true /\
  loading (handleDelete true (Fulfilled res) refresh st) = false /\
  sameData (fetchData refresh st)
    (handleDelete true (Fulfilled res) refresh st) /\
  error (handleDelete true (Fulfilled res) refresh st) =
    error (fetchData refresh st).
Proof.
  intros Hsel Hok Hjson. unfold handleDelete.
  destruct (selectedItems st) as [|id sel] eqn:Hs; [contradiction|].
  cbn [setSize List.length Nat.eqb negb].
  unfold guarded, handleDeleteBody. rewrite Hok, Hjson. cbn [negb].
  set (before := recordOutcomes results (setError None (setLoading true st))).
  assert (Hselected : selectedItems (fetchData refresh before) = []).
  { rewrite fetchData_selected. reflexivity. }
  split; [exact Hselected|]. split; [|split; [reflexivity|split]].
  - unfold deleteDisabled. cbn [selectedItems setLoading].
    now rewrite Hselected.
  - apply (fetchData_data refresh (st1 := st) (st2 := setLoading false before)).
    unfold before, recordOutcomes.
    destruct (0 <? _)%nat; repeat split.
  - cbn [error setLoading]. apply fetchData_error_fresh.
Qed.

End DeleteFacts.

(** A refresh in which the images body does not decode: the containers
    are replaced, the images are not, and the decoding error is shown. *)
Lemma refresh_partial_scenario :
  Client.containers
    (Client.fetchData
       (Js.Fulfilled
          {| Client.containersRes := Client.okResponse [];
             Client.imagesRes :=
               {| Client.ok := true;
                  Client.json := Js.Rejected (Js.ErrorObject "Unexpected token") |};
             Client.volumesRes := Client.okResponse [];
             Client.networksRes := Client.okResponse [];
             Client.systemRes := Client.okResponse Client.noUsage |})
       Client.imagesSearched) = [] /\
  Client.images
    (Client.fetchData
       (Js.Fulfilled
          {| Client.containersRes := Client.okResponse [];
             Client.imagesRes :=
               {| Client.ok := true;
                  Client.json := Js.Rejected (Js.ErrorObject "Unexpected token") |};
             Client.volumesRes := Client.okResponse [];
             Client.networksRes := Client.okResponse [];
             Client.systemRes := Client.okResponse Client.noUsage |})
       Client.imagesSearched) = Client.images Client.imagesSearched.
Proof.
  destruct (refresh_commits_bodies_in_order
              {| Client.containersRes := Client.okResponse [];
                 Client.imagesRes :=
                   {| Client.ok := true;
                      Client.json :=
                        Js.Rejected (Js.ErrorObject "Unexpected token") |};
                 Client.volumesRes := Client.okResponse [];
                 Client.networksRes := Client.okResponse [];
                 Client.systemRes := Client.okResponse Client.noUsage |}
              Client.imagesSearched eq_refl eq_refl eq_refl eq_refl eq_refl)
    as (Hc & Hi & _).
  split; [exact Hc | exact Hi].
Defined.

(** A delete answered with status 500 keeps both containers selected. *)
Lemma failed_delete_scenario :
  Client.selectedItems
    (Client.handleDelete true
       (Js.Fulfilled {| Client.ok := false;
                        Client.json := Js.Rejected Js.OtherValue |})
       Client.refreshAfterDelete Client.twoSelected) = ["c1"; "c2"] /\
  Client.error
    (Client.handleDelete true
       (Js.Fulfilled {| Client.ok := false;
                        Client.json := Js.Rejected Js.OtherValue |})
       Client.refreshAfterDelete Client.twoSelected) =
    Some "Failed to delete items".
Proof.
  destruct (proj2 (unfinished_delete_keeps_selection true
                     (Js.Fulfilled {| Client.ok := false;
                                      Client.json := Js.Rejected Js.OtherValue |})
                     Client.refreshAfterDelete Client.twoSelected)
              "Failed to delete items" ltac:(discriminate) eq_refl eq_refl)
    as (Hsel & _ & Herr & _).
  split; [exact Hsel | exact Herr].
Defined.

(** The delete of the scenario leaves nothing selected and shows the
    refreshed container. *)
Lemma completed_delete_scenario :
  Client.selectedItems
    (Client.handleDelete true
       (Js.Fulfilled (Client.okResponse [ {| Client.success := true |};
                                          {| Client.success := false |} ]))
       Client.refreshAfterDelete Client.twoSelected) = [] /\
  View.deleteDisabled
    (Client.handleDelete true
       (Js.Fulfilled (Client.okResponse [ {| Client.success := true |};
                                          {| Client.success := false |} ]))
       Client.refreshAfterDelete Client.twoSelected) = true.
Proof.
  destruct (@completed_delete_clears_and_refreshes
              (Client.okResponse [ {| Client.success := true |};
                                   {| Client.success := false |} ])
              _ Client.refreshAfterDelete Client.twoSelected
              ltac:(discriminate) eq_refl eq_refl)
    as (Hsel & Hdis & _).
  split; [exact Hsel | exact Hdis].
Defined.

(* ===================================================================== *)
(** ** A delete from the client through the gateway: properties *)
(* ===================================================================== *)

Section WireFacts.
Import Js.

Context {E : Type} {D : Gateway.Docker E}.

Lemma destructure_deleteRequest st :
  Wire.destructure (Wire.kindOf (Client.endpoint (Client.deleteRequest st)))
    (Client.deleteRequest st) = Some (Client.selectedItems st).
Proof.
  unfold Client.deleteRequest, Wire.destructure. simpl.
  now destruct (Client.activeTab st).
Qed.

Lemma failed_outcomes_count results :
  List.length
    (filter (fun r => negb (Client.success r)) (map Wire.outcomeOf results)) =
  List.length (filter (fun r => negb (Gateway.success r)) results).
Proof.
  induction results as [|r results IH]; simpl; [reflexivity|].
  destruct (Gateway.success r); simpl; now rewrite IH.
Qed.

(** X8. The request the client builds for the active tab is one the endpoint
    of that tab accepts: volumes go by [names], everything else by [ids],
    on both sides.  The gateway answers it with one outcome per selected
    identifier, in selection order, the client reads the response as ok,
    and the number of failures the client counts is the number of
    entries the gateway marked as failed. *)
Theorem client_delete_is_accepted (st : Client.State) (e : E) :
  exists e' results,
    Wire.serveDelete (Client.deleteRequest st) e =
      (e', Gateway.DeleteResults results) /\
    map Gateway.ident results = Client.selectedItems st /\
    Forall (fun r => Gateway.label r =
                     match Client.activeTab st with
                     | Client.volumesTab => Gateway.KeyName
                     | _ => Gateway.KeyId
                     end) results /\
    Wire.received (Gateway.DeleteResults results) =
      Client.okResponse (map Wire.outcomeOf results) /\
    forall s,
      Client.error (Client.recordOutcomes (map Wire.outcomeOf results) s) =
      (if (0 <? List.length
                  (filter (fun r => negb (Gateway.success r)) results))%nat
       then Some ("Failed to delete " ++
                  showNat (List.length
                             (filter (fun r => negb (Gateway.success r))
                                results)) ++ " items")%string
       else Client.error s).
Proof.
  unfold Wire.serveDelete. rewrite destructure_deleteRequest.
  rewrite handleDeleteRequest_loop.
  do 2 eexists. split; [reflexivity|].
  split; [apply removeAll_idents|]. split; [|split; [reflexivity|]].
  - cbn [Client.endpoint Client.deleteRequest].
    generalize (Client.selectedItems st) e.
    intros ids. induction ids as [|id ids IH]; intros e0.
    + constructor.
    + rewrite removeAll_cons. cbn [snd]. constructor; [|apply IH].
      unfold Gateway.attempt.
      destruct (Gateway.remove _ id _ e0) as [e1 [[]|t]];
        now destruct (Client.activeTab st).
  - intros s. unfold Client.recordOutcomes.
    rewrite failed_outcomes_count.
    now destruct (0 <? _)%nat.
Qed.

(** X9. A body that carries its identifiers under the other key than the
    endpoint reads is refused with status 500 before any removal; the
    client, reading a response that is not ok, keeps the selection and
    shows that the delete failed. *)
Theorem mismatched_delete_body_is_refused
    (req : Client.DeleteRequest) (e : E) (refresh : Client.FetchOutcome)
    (st : Client.State) :
  Client.bodyKey req <> Wire.expectedKey (Wire.kindOf (Client.endpoint req)) ->
  Client.selectedItems st <> [] ->
  (exists message,
     Wire.serveDelete req e = (e, Gateway.Failure 500 message)) /\
  Client.selectedItems
    (Client.handleDelete true
       (Fulfilled (Wire.received (snd (Wire.serveDelete req e))))
       refresh st) = Client.selectedItems st /\
  Client.error
    (Client.handleDelete true
       (Fulfilled (Wire.received (snd (Wire.serveDelete req e))))
       refresh st) = Some "Failed to delete items".
Proof.
  intros Hkey Hsel.
  assert (Hserve : exists message,
            Wire.serveDelete req e = (e, Gateway.Failure 500 message)).
  { unfold Wire.serveDelete, Wire.destructure.
    destruct (Client.endpoint req), (Client.bodyKey req); simpl in *;
      try congruence; eexists; reflexivity. }
  split; [exact Hserve|]. destruct Hserve as [message ->].
  unfold Client.handleDelete.
  destruct (Client.selectedItems st) as [|id sel] eqn:Hs; [contradiction|].
  simpl. rewrite Hs. split; reflexivity.
Qed.

End WireFacts.

(** The selection of the scenario, sent through the gateway to the
    scenario engine. *)
Lemma client_delete_scenario :
  exists results,
    snd (Wire.serveDelete (D := Gateway.scripted)
           (Client.deleteRequest Client.twoSelected) Gateway.scenarioEngine) =
      Gateway.DeleteResults results /\
    map Gateway.ident results = ["c1"; "c2"].
Proof.
  destruct (client_delete_is_accepted (D := Gateway.scripted)
              Client.twoSelected Gateway.scenarioEngine)
    as (e' & results & Hserve & Hids & _).
  exists results. rewrite Hserve. split; [reflexivity | exact Hids].
Defined.

(** A volume request sent to the containers endpoint. *)
Lemma mismatched_body_scenario :
  Client.error
    (Client.handleDelete true
       (Js.Fulfilled
          (Wire.received
             (snd (Wire.serveDelete (D := Gateway.scripted)
                     {| Client.endpoint := Client.containersTab;
                        Client.bodyKey := Client.names;
                        Client.identifiers := ["c1"] |}
                     Gateway.scenarioEngine))))
       Client.refreshAfterDelete Client.twoSelected) =
    Some "Failed to delete items".
Proof.
  apply (proj2 (proj2 (@mismatched_delete_body_is_refused
                         _ Gateway.scripted
                         {| Client.endpoint := Client.containersTab;
                            Client.bodyKey := Client.names;
                            Client.identifiers := ["c1"] |}
                         Gateway.scenarioEngine Client.refreshAfterDelete
                         Client.twoSelected
                         ltac:(discriminate) ltac:(discriminate)))).
Defined.

(** The report that names [data] twice: the listing shows the figure of
    the second entry. *)
Lemma last_entry_scenario :
  exists details,
    Gateway.getVolumes (H := Gateway.scripted) Inventory.twiceReported =
      (Inventory.twiceReported, Gateway.VolumeDetails details) /\
    map Gateway.size details = [2048].
Proof.
  destruct (@volume_size_last_entry_wins _ Gateway.scripted
              Inventory.twiceReported _ _ _ _ _
              [Gateway.dataVolume
                 (Some {| Gateway.Size := 10; Gateway.RefCount := 0 |})]
              []
              (Gateway.dataVolume
                 (Some {| Gateway.Size := 2048; Gateway.RefCount := 1 |}))
              eq_refl eq_refl eq_refl eq_refl
              ltac:(intros later [])) as (details & Hget & Hlen & Hsize).
  exists details. split; [exact Hget|].
  destruct details as [|d [|d' ds]]; try discriminate Hlen.
  simpl. f_equal. apply Hsize; [now left|].
  injection Hget as Hd. now inversion Hd.
Defined.

(** The usage summary's volumes total and the sizes of the listing, for
    an engine whose listing and report describe the same two volumes. *)
Lemma volumes_total_scenario :
  exists details info,
    Gateway.getVolumes (H := Gateway.scripted) Inventory.agreeing =
      (Inventory.agreeing, Gateway.VolumeDetails details) /\
    Inventory.getSystem (Js.Fulfilled Inventory.agreeingUsage) =
      Inventory.Ok info /\
    fold_right Z.add 0 (map Gateway.size details) =
      Client.totalSize (Client.infoVolumes info) /\
    Z.of_nat (List.length details) = Client.count (Client.infoVolumes info).
Proof.
  apply (@volumes_total_is_sum_of_listed_sizes _ Gateway.scripted
           Inventory.agreeing _ _ _ _ Inventory.agreeingUsage _
           Inventory.bothReported
           eq_refl eq_refl eq_refl eq_refl eq_refl).
  - repeat constructor; simpl; intuition discriminate.
  - simpl. apply perm_swap.
Defined.

(** The dangling image of the scenario, as the table shows it. *)
Lemma untagged_image_scenario :
  View.tagCells (Inventory.imageDetail Inventory.danglingImage) = ["<none>"].
Proof.
  apply (proj1 (untagged_image_row Inventory.danglingImage ""
                  (or_introl eq_refl))).
Defined.

Section ReachableFacts.
Import Js Client View.

Variable localeCompare : string -> string -> Z.

(** In every state the page can be in, the selection holds no identifier
    twice: the list of the model behaves as the [Set] of the code. *)
Lemma reachable_selection_NoDup st :
  reachable localeCompare st -> NoDup (selectedItems st).
Proof.
  induction 1 as [|ev st Hreach IH]; [constructor|].
  destruct ev as [tab|k|text| |id|confirmed response refresh|outcome];
    simpl; try assumption.
  - constructor.
  - unfold handleSelectAll. destruct (Nat.eqb _ _); simpl;
      [constructor|apply setOf_NoDup].
  - unfold handleSelectItem. destruct (setHas id (selectedItems st)); simpl;
      [now apply setDelete_NoDup | now apply setAdd_NoDup].
  - destruct (list_eq_dec String.string_dec
                (selectedItems (handleDelete confirmed response refresh st))
                (selectedItems st)) as [->|Hne]; [assumption|].
    destruct (handleDelete_selected _ _ _ _ Hne)
      as (-> & res & results & -> & Hok & Hjson).
    unfold handleDelete in *.
    destruct (selectedItems st) as [|x sel] eqn:Hs; [now contradiction Hne|].
    cbn [setSize List.length Nat.eqb negb].
    rewrite guarded_selected. unfold handleDeleteBody.
    rewrite Hok, Hjson. cbn [negb fst].
    rewrite fetchData_selected. constructor.
  - now rewrite fetchData_selected.
Qed.

End ReachableFacts.

Section RefreshThroughGateway.
Import Js.

(** X10. A refresh served by the gateway.  When one of the engine's list calls
    or its usage report fails, the gateway answers that request with
    status 500 and the client keeps all previously fetched data and shows
    that the fetch failed.  When they all succeed, and the volumes
    response is ok, the client holds one container, image and network
    record per instance the engine reported, in the engine's order. *)
Theorem refresh_through_gateway
    (containers : Settled (list Inventory.ContainerInfo.t))
    (images : Settled (list Inventory.ImageInfo.t))
    (volumesRes : Client.FetchResponse (list Client.Volume.t))
    (networks : Settled (list Inventory.NetworkInfo.t))
    (usage : Settled Inventory.DiskUsage) (st : Client.State) :
  ((exists t, containers = Rejected t) \/ (exists t, images = Rejected t) \/
   (exists t, networks = Rejected t) \/ (exists t, usage = Rejected t) ->
   Client.sameData st
     (Client.fetchData
        (Wire.refreshFrom containers images volumesRes networks usage) st) /\
   Client.error
     (Client.fetchData
        (Wire.refreshFrom containers images volumesRes networks usage) st) =
     Some "Failed to fetch data") /\
  (forall cs ims vs ns df,
     containers = Fulfilled cs -> images = Fulfilled ims ->
     volumesRes = Client.okResponse vs ->
     networks = Fulfilled ns -> usage = Fulfilled df ->
     map Client.Container.id
       (Client.containers
          (Client.fetchData
             (Wire.refreshFrom containers images volumesRes networks usage)
             st)) = map Inventory.ContainerInfo.Id cs /\
     map Client.Image.id
       (Client.images
          (Client.fetchData
             (Wire.refreshFrom containers images volumesRes networks usage)
             st)) = map Inventory.ImageInfo.Id ims /\
     map Client.Network.id
       (Client.networks
          (Client.fetchData
             (Wire.refreshFrom containers images volumesRes networks usage)
             st)) = map Inventory.NetworkInfo.Id ns /\
     Client.volumes
       (Client.fetchData
          (Wire.refreshFrom containers images volumesRes networks usage)
          st) = vs /\
     Client.error
       (Client.fetchData
          (Wire.refreshFrom containers images volumesRes networks usage)
          st) = None).
Proof.
  split.
  - intros Hfail.
    assert (Hbad :
      Client.fetchDataBody
        (Wire.refreshFrom containers images volumesRes networks usage)
        (Client.setError None (Client.setLoading true st)) =
      (Client.setError None (Client.setLoading true st),
       Some (ErrorObject "Failed to fetch data"))).
    { unfold Client.fetchDataBody, Wire.refreshFrom.
      cbn [Client.containersRes Client.imagesRes Client.volumesRes
           Client.networksRes Client.systemRes].
      destruct Hfail as [[t ->]|[[t ->]|[[t ->]|[t ->]]]]; simpl;
        rewrite ?orb_true_r; reflexivity. }
    destruct (fetchData_failed_body _ Hbad) as (Hdata & Herr & _).
    split; assumption.
  - intros cs ims vs ns df -> -> -> -> ->.
    unfold Client.fetchData, Client.guarded. simpl.
    rewrite !map_map. simpl. repeat split.
Qed.

End RefreshThroughGateway.

(** A refresh during which the engine fails to list the images leaves the
    two containers of [twoSelected]. *)
Lemma refresh_engine_failure_scenario :
  Client.containers
    (Client.fetchData
       (Wire.refreshFrom (Js.Fulfilled []) (Js.Rejected Js.OtherValue)
          (Client.okResponse []) (Js.Fulfilled [])
          (Js.Fulfilled Inventory.agreeingUsage))
       Client.twoSelected) = Client.containers Client.twoSelected.
Proof.
  destruct (proj1 (refresh_through_gateway (Js.Fulfilled [])
                     (Js.Rejected Js.OtherValue) (Client.okResponse [])
                     (Js.Fulfilled []) (Js.Fulfilled Inventory.agreeingUsage)
                     Client.twoSelected)) as ((Hc & _) & _).
  - right; left. eexists; reflexivity.
  - exact Hc.
Defined.

Section ShortIdFacts.

Lemma substring_length n : forall s,
  (n <= String.length s)%nat ->
  String.length (String.substring 0 n s) = n.
Proof.
  induction n as [|n IH]; intros s Hlen.
  - now destruct s.
  - destruct s as [|c s]; simpl in *; [lia|].
    rewrite IH; [reflexivity|lia].
Qed.

(** X25. The image id column shows the twelve characters that follow the
    seven-character digest prefix of the id; an id with fewer than eight
    characters shows as empty. *)
Theorem short_image_id (id : string) :
  (forall digest hex,
     String.length digest = 7%nat -> (12 <= String.length hex)%nat ->
     id = (digest ++ hex)%string ->
     View.shortId id = String.substring 0 12 hex /\
     String.length (View.shortId id) = 12%nat) /\
  ((String.length id <= 7)%nat -> View.shortId id = "").
Proof.
  unfold View.shortId. split.
  - intros digest hex Hd Hhex ->.
    assert (Heq : String.substring 7 12 (digest ++ hex) =
                  String.substring 0 12 hex).
    { do 7 (destruct digest as [|? digest]; [discriminate Hd|]).
      destruct digest; [|discriminate Hd]. reflexivity. }
    rewrite Heq. split; [reflexivity|now apply substring_length].
  - intros Hlen.
    do 8 (destruct id as [|? id]; [reflexivity|]).
    simpl in Hlen. lia.
Qed.

End ShortIdFacts.

(** The id cell of a digest. *)
Lemma short_image_id_scenario :
  View.shortId "sha256:0123456789abcdef0123" = "0123456789ab".
Proof.
  apply (proj1 (proj1 (short_image_id "sha256:0123456789abcdef0123")
                  "sha256:" "0123456789abcdef0123" eq_refl
                  ltac:(simpl; lia) eq_refl)).
Defined.
